(** * stat_arb_model: the signal-to-portfolio pipeline of a daily
      statistical-arbitrage backtest

    A shallow embedding of [stat_arb_model.py].  NumPy/pandas floats are
    idealised as real numbers: every arithmetic operation is exact.  The only
    non-finite values the model keeps are the NaNs that pandas produces when a
    cross-section is standardised with a zero or undefined standard
    deviation; close prices are taken to be finite and non-zero.

    Python exceptions are the [Raise] results of a small error monad.  The
    routines of scikit-learn, NumPy's eigenvalues, cvxopt's solver and
    [equity_shared.calc_return] are parameters of the pipeline; printing and
    plotting are left out. *)

From Stdlib Require Import Reals Lra Lia List ZArith Bool PeanoNat.
Import ListNotations.
Open Scope R_scope.

(** ** Results of Python computations *)

Inductive exn : Set :=
| AssertionError
| IndexError
| KeyError
| ValueError
| NameError
| UnboundLocalError.

Inductive result (A : Type) : Type :=
| Ok (a : A)
| Raise (e : exn).

Arguments Ok {A} a.
Arguments Raise {A} e.

Definition bind {A B : Type} (c : result A) (k : A -> result B) : result B :=
  match c with
  | Ok a => k a
  | Raise e => Raise e
  end.

Notation "x <- c ;; k" := (bind c (fun x => k))
  (at level 61, c at next level, right associativity).
Notation "' p <- c ;; k" := (bind c (fun x => let p := x in k))
  (at level 61, p pattern, c at next level, right associativity).

(** [assert b]. *)
Definition assert (b : bool) : result unit :=
  if b then Ok tt else Raise AssertionError.

(** ** Python sequences *)

Module Py.

Section Seq.
Context {A : Type}.

(** Normalisation of a slice bound against a sequence of length [len]. *)
Definition clamp (len i : Z) : Z :=
  if (i <? 0)%Z then Z.max (i + len) 0 else Z.min i len.

(** [l[a:b]]. *)
Definition slice (a b : Z) (l : list A) : list A :=
  let len := Z.of_nat (length l) in
  let lo := Z.to_nat (clamp len a) in
  let hi := Z.to_nat (clamp len b) in
  firstn (hi - lo) (skipn lo l).

(** [l[a:]]. *)
Definition slice_from (a : Z) (l : list A) : list A :=
  skipn (Z.to_nat (clamp (Z.of_nat (length l)) a)) l.

(** [l[i]], raising [IndexError] out of range. *)
Definition index (i : Z) (l : list A) : result A :=
  let len := Z.of_nat (length l) in
  let j := if (i <? 0)%Z then (i + len)%Z else i in
  if ((j <? 0) || (len <=? j))%Z then Raise IndexError
  else match nth_error l (Z.to_nat j) with
       | Some x => Ok x
       | None => Raise IndexError
       end.

(** [l[i] = x] for an index known to be in range. *)
Fixpoint set_nth (i : nat) (x : A) (l : list A) : list A :=
  match l, i with
  | [], _ => []
  | _ :: t, O => x :: t
  | h :: t, S j => h :: set_nth j x t
  end.

End Seq.

(** [range(a, b)]. *)
Definition range (a b : Z) : list Z :=
  map (fun k => (a + Z.of_nat k)%Z) (seq 0 (Z.to_nat (b - a))).

End Py.

(** ** Vectors, matrices and frames *)

Definition vec := list R.
Definition matrix := list vec.

Definition date := nat.
Definition label := nat.

(** A pandas Series: labels and values. *)
Record Series : Type := mkSeries {
  s_index : list date;
  s_values : vec
}.

(** A pandas DataFrame: row labels, column labels, rows of values. *)
Record DataFrame : Type := mkFrame {
  index : list date;
  columns : list label;
  rows : matrix
}.

(** [pd.DataFrame(data, index = idx, columns = cols)]: the shape of the data
    has to agree with the axes. *)
Definition frame_of (data : matrix) (idx : list date) (cols : list label)
  : result DataFrame :=
  if ((length data =? length idx)%nat
      && forallb (fun r => (length r =? length cols)%nat) data)%bool
  then Ok (mkFrame idx cols data)
  else Raise ValueError.

(** [df.iloc[a:b, :]]. *)
Definition iloc_rows (a b : Z) (df : DataFrame) : DataFrame :=
  mkFrame (Py.slice a b (index df)) (columns df) (Py.slice a b (rows df)).

(** [df.iloc[i, :]]. *)
Definition iloc (i : Z) (df : DataFrame) : result vec :=
  Py.index i (rows df).

(** [df.shape]. *)
Definition shape (df : DataFrame) : Z * Z :=
  (Z.of_nat (length (rows df)), Z.of_nat (length (columns df))).

(** ** Real-number helpers *)

Definition Rltb (x y : R) : bool := if Rlt_dec x y then true else false.
Definition Reqb (x y : R) : bool := if Req_dec_T x y then true else false.

(** Python's [sum] of a sequence of numbers. *)
Definition vsum (v : vec) : R := fold_right Rplus 0 v.

Definition vscale (c : R) (v : vec) : vec := map (fun x => c * x) v.
Definition vneg (v : vec) : vec := map Ropp v.
Definition zeros (n : nat) : vec := repeat 0 n.

(** [np.dot] of two one-dimensional arrays. *)
Definition dot (a b : vec) : result R :=
  if (length a =? length b)%nat
  then Ok (vsum (map (fun p => fst p * snd p) (combine a b)))
  else Raise ValueError.

(** A float that may be NaN; every comparison with NaN is false. *)
Definition lt_nan (x : option R) (y : R) : bool :=
  match x with
  | Some r => Rltb r y
  | None => false
  end.

(** ** Signal normaliser *)

(** [Series.mean()]: NaN on an empty series. *)
Definition mean (v : vec) : option R :=
  match v with
  | [] => None
  | _ => Some (vsum v / INR (length v))
  end.

(** [Series.std()]: the sample standard deviation (pandas uses one delta
    degree of freedom), NaN on fewer than two values. *)
Definition std (v : vec) : option R :=
  match mean v with
  | None => None
  | Some m =>
      if (length v <=? 1)%nat then None
      else Some (sqrt (vsum (map (fun x => (x - m) * (x - m)) v)
                       / INR (length v - 1)))
  end.

(** The values of a cross-section during normalisation: all finite, or all
    NaN once a standardisation has divided by a zero or NaN deviation. *)
Inductive cross : Type :=
| Fin (v : vec)
| NaNs.

(** [(out - out.mean()) / out.std()].  With a zero deviation every entry
    equals the mean, so every quotient is 0/0. *)
Definition standardize (out : cross) : cross :=
  match out with
  | NaNs => NaNs
  | Fin v =>
      match mean v, std v with
      | Some m, Some s =>
          if Reqb s 0 then NaNs else Fin (map (fun x => (x - m) / s) v)
      | _, _ => NaNs
      end
  end.

(** [out[abs(out)>3] = 3*out[abs(out)>3]/abs(out[abs(out)>3])]. *)
Definition clip3 (x : R) : R :=
  if Rltb 3 (Rabs x) then 3 * x / Rabs x else x.

Definition clip (out : cross) : cross :=
  match out with
  | NaNs => NaNs
  | Fin v => Fin (map clip3 v)
  end.

(** The [while] loop, counted by the iterations that remain. *)
Fixpoint windsorize_loop (k : nat) (out : cross) : cross :=
  match k with
  | O => out
  | S k' => windsorize_loop k' (clip (standardize out))
  end.

(** [max(abs(out))] on a non-empty series. *)
Definition max_abs (v : vec) : R :=
  match v with
  | [] => 0
  | x :: t => fold_left (fun m y => if Rltb m (Rabs y) then Rabs y else m) t (Rabs x)
  end.

Definition windsorize (raw : cross) (n : nat) : result vec :=
  match windsorize_loop n raw with
  | NaNs => Raise AssertionError
  | Fin out =>
      _ <- assert (lt_nan (option_map Rabs (mean out)) (1/100)) ;;
      _ <- assert (lt_nan (option_map (fun s => Rabs (s - 1)) (std out)) (1/100)) ;;
      _ <- assert (Rltb (max_abs out - 3) (1/100)) ;;
      Ok out
  end.

(** ** Alpha sub-signals *)

(** The cumulative return [ret] computed by [alpha_mom_str]. *)
Definition mom_ret (data_period : DataFrame) : result vec :=
  first <- iloc 0 data_period ;;
  last <- iloc (-1) data_period ;;
  Ok (map (fun p => fst p / snd p - 1) (combine first last)).

Definition alpha_mom_str (data_period : DataFrame) (windsor : bool) : result vec :=
  ret <- mom_ret data_period ;;
  if windsor then windsorize (Fin ret) 10 else Raise UnboundLocalError.

(** Column [j] of a matrix. *)
Definition column (j : nat) (m : matrix) : vec := map (fun r => nth j r 0) m.

(** [df.mean(axis = 0)]: one mean per column, NaN when there is no row. *)
Definition mean_axis0 (df : DataFrame) : cross :=
  match rows df with
  | [] => match columns df with [] => Fin [] | _ => NaNs end
  | _ =>
      Fin (map (fun j => vsum (column j (rows df)) / INR (length (rows df)))
               (seq 0 (length (columns df))))
  end.

(** The average volume [avg_vol] computed by [alpha_vol_wk]. *)
Definition vol_avg (data_period : DataFrame) : cross :=
  let data_1wk := iloc_rows (-5) (-1) data_period in
  mean_axis0 data_1wk.

Definition alpha_vol_wk (data_period : DataFrame) (windsor : bool) : result vec :=
  let avg_vol := vol_avg data_period in
  if windsor then windsorize avg_vol 10 else Raise UnboundLocalError.

Definition alpha_b2m (data_period : vec) (windsor : bool) : result vec :=
  if windsor then windsorize (Fin (vneg data_period)) 10
  else Raise UnboundLocalError.

(** The equally weighted sum of the three normalised sub-signals; the three
    matrices share their asset labels. *)
Definition aggregate (a_mom a_vol a_b2m : vec) : vec :=
  map (fun p => fst (fst p) * 1 / 3 + snd (fst p) * 1 / 3 + snd p * 1 / 3)
      (combine (combine a_mom a_vol) a_b2m).

Definition alpha_model (t : Z) (px_close px_vol bk2mkt : DataFrame) : result vec :=
  a_mom <- alpha_mom_str (iloc_rows (t - 250) t px_close) true ;;
  a_vol <- alpha_vol_wk (iloc_rows (t - 5) t px_vol) true ;;
  b2m_t <- iloc t bk2mkt ;;
  a_b2m <- alpha_b2m b2m_t true ;;
  Ok (aggregate a_mom a_vol a_b2m).

(** ** Constraint builder *)

(** The trade cap [theta] and the position cap [pi] of [max_size]. *)
Definition size_caps (w : vec) : R * R :=
  if Reqb (vsum (map Rabs w)) 0 then
    let theta := 150000 in
    (theta, 10 * theta)
  else
    let theta := Rmin 150000 (vsum (map Rabs w) * (1/100)) in
    (theta, Rmin (10 * theta) (vsum (filter (fun x => Rltb 0 x) w))).

Definition max_size (w : vec) : vec * vec :=
  let '(theta, pi) := size_caps w in
  let gamma := map (fun x => Rmax (x - theta) (- pi)) w in
  let delta := map (fun x => Rmin (x + theta) pi) w in
  (gamma, delta).

(** ** Transaction costs *)

Definition tau_model (px_close : DataFrame) : vec :=
  repeat (2/10000) (Z.to_nat (snd (shape px_close))).

(** ** The collaborators outside the repository *)

Record collaborators : Type := {
  (** [equity_shared.calc_return]: the matrix of daily returns. *)
  calc_return : DataFrame -> result matrix;
  (** [LinearRegression().fit(x, y).coef_[0]]. *)
  linreg_coef : vec -> vec -> result R;
  (** [LedoitWolf().fit(ret).covariance_]. *)
  ledoit_wolf : matrix -> result matrix;
  (** [np.linalg.eigvals]. *)
  eigvals : matrix -> result (list R);
  (** [cvxopt.solvers.qp(P, q, G, h, A, b)['x']]. *)
  qp : matrix -> vec -> matrix -> vec -> matrix -> vec -> result vec
}.

Fixpoint mapM {A B : Type} (f : A -> result B) (l : list A) : result (list B) :=
  match l with
  | [] => Ok []
  | x :: t => y <- f x ;; ys <- mapM f t ;; Ok (y :: ys)
  end.

Definition identity (n : nat) : matrix :=
  map (fun i => map (fun j => if (i =? j)%nat then 1 else 0) (seq 0 n)) (seq 0 n).

Definition mscale (c : R) (m : matrix) : matrix := map (vscale c) m.

(** The module-level names read by the functions. *)
Record globals : Type := {
  port_full_pd : option DataFrame
}.

(** [df.loc[t]]; the date labels of a frame are unique. *)
Definition loc (t : date) (df : DataFrame) : result vec :=
  match find (fun p => (fst p =? t)%nat) (combine (index df) (rows df)) with
  | Some p => Ok (snd p)
  | None => Raise KeyError
  end.

(** [s[t] = x] for a label of the series. *)
Definition set_loc (t : date) (x : R) (s : Series) : Series :=
  mkSeries (s_index s)
           (map (fun p => if (fst p =? t)%nat then x else snd p)
                (combine (s_index s) (s_values s))).

(** [df.iloc[:, 0] * 0]. *)
Definition first_column_times_zero (df : DataFrame) : result Series :=
  match columns df with
  | [] => Raise IndexError
  | _ => Ok (mkSeries (index df) (map (fun r => nth 0 r 0 * 0) (rows df)))
  end.

(** [Series.cumsum()]. *)
Fixpoint cumsum_from (acc : R) (v : vec) : vec :=
  match v with
  | [] => []
  | x :: t => (acc + x) :: cumsum_from (acc + x) t
  end.

Definition cumsum (s : Series) : Series :=
  mkSeries (s_index s) (cumsum_from 0 (s_values s)).

(** The value side of [port_full[i, :] = port_t.flatten()]: NumPy accepts a
    row of the width of the array, and broadcasts a single value. *)
Definition broadcast_row (n : nat) (row : vec) : result vec :=
  if (length row =? n)%nat then Ok row
  else match row with
       | [x] => Ok (repeat x n)
       | _ => Raise ValueError
       end.

Section Pipeline.

Variable ext : collaborators.

(** ** Risk estimator *)

Definition beta_model (px_close : DataFrame) : result vec :=
  let dates := Py.slice_from 1 (index px_close) in
  let labels := columns px_close in
  data <- calc_return ext px_close ;;
  ret <- frame_of data dates labels ;;
  let ret_eq := map (fun r => vsum r / INR (length r)) (rows ret) in
  mapM (fun j => linreg_coef ext ret_eq (column j (rows ret)))
       (seq 0 (length (columns ret))).

Definition sigma_model (px_close : DataFrame) : result matrix :=
  ret <- calc_return ext px_close ;;
  sigma <- ledoit_wolf ext ret ;;
  ev <- eigvals ext sigma ;;
  _ <- assert (forallb (fun x => Rltb 0 x) ev) ;;
  Ok sigma.

(** ** Portfolio optimiser *)

Definition optimize_port (w beta : vec) (sigma : matrix)
    (px_close px_vol bk2mkt : DataFrame) (t : Z) : result vec :=
  let n := Z.to_nat (snd (shape px_close)) in
  alpha_t <- alpha_model t px_close px_vol bk2mkt ;;
  let '(gamma_t, delta_t) := max_size w in
  let mu := 1 in
  let P := mscale mu sigma in
  let q := vneg alpha_t in
  A <- (if (length beta =? n)%nat then Ok [beta] else Raise ValueError) ;;
  let b := [0] in
  let G := mscale (-1) (identity n) ++ identity n in
  let h := vneg gamma_t ++ delta_t in
  qp ext P q G h A b.

(** ** Rebalancing loop *)

(** The names the loop of [trade_model] assigns.  [port_t1] starts as a view
    of the first row of [port_full]; it is read before that row is written
    and rebound afterwards, so the two never differ while it is a view. *)
Record loop_state : Type := mkLoop {
  port_full : matrix;
  port_t1 : vec;
  port_frame : option DataFrame
}.

Definition trade_step (beta : vec) (sigma : matrix)
    (px_close px_vol bk2mkt : DataFrame) (ti : Z) (n : nat)
    (st : loop_state) (t : Z) : result loop_state :=
  port_t <- optimize_port (port_t1 st) beta sigma px_close px_vol bk2mkt t ;;
  row <- broadcast_row n port_t ;;
  let full := Py.set_nth (Z.to_nat (t - ti)) row (port_full st) in
  d <- dot port_t beta ;;
  _ <- assert (Rltb d (1/100)) ;;
  let dates := Py.slice_from ti (index px_close) in
  let labels := columns px_close in
  pd <- frame_of full dates labels ;;
  Ok (mkLoop full port_t (Some pd)).

Fixpoint trade_loop (step : loop_state -> Z -> result loop_state)
    (days : list Z) (st : loop_state) : result loop_state :=
  match days with
  | [] => Ok st
  | t :: rest => st' <- step st t ;; trade_loop step rest st'
  end.

Definition trade_model (px_close px_vol bk2mkt : DataFrame) : result DataFrame :=
  let ti := 250%Z in
  beta <- beta_model px_close ;;
  sigma <- sigma_model px_close ;;
  let '(m, n) := shape px_close in
  full0 <- (if (m - ti <? 0)%Z then Raise ValueError
            else Ok (repeat (zeros (Z.to_nat n)) (Z.to_nat (m - ti)))) ;;
  w0 <- Py.index 0 full0 ;;
  st <- trade_loop
          (trade_step beta sigma px_close px_vol bk2mkt ti (Z.to_nat n))
          (Py.range ti m) (mkLoop full0 w0 None) ;;
  match port_frame st with
  | Some pd => Ok pd
  | None => Raise UnboundLocalError
  end.

(** ** Backtest evaluator *)

Fixpoint backtest_loop (ret_full pf : DataFrame) (days : list date)
    (pnl : Series) : result Series :=
  match days with
  | [] => Ok pnl
  | t :: rest =>
      r <- loc t ret_full ;;
      p <- loc t pf ;;
      d <- dot r p ;;
      backtest_loop ret_full pf rest (set_loc t d pnl)
  end.

(** The parameter [port_full] is never read: the body names the global
    [port_full_pd]. *)
Definition backtest (g : globals) (px_close port_full : DataFrame) : result Series :=
  let labels := columns px_close in
  data <- calc_return ext px_close ;;
  ret_full <- frame_of data (Py.slice_from 1 (index px_close)) labels ;;
  pf <- match port_full_pd g with
        | Some pf => Ok pf
        | None => Raise NameError
        end ;;
  pnl0 <- first_column_times_zero pf ;;
  pnl <- backtest_loop ret_full pf (index pf) pnl0 ;;
  Ok (cumsum pnl).

End Pipeline.

(** ** The script *)

(** The run of the script, from the three matrices pulled from the data
    provider: the history of [trade_model] becomes the global
    [port_full_pd] and is passed to [backtest]. *)
Definition main (ext : collaborators) (px_close px_vol bk2mkt : DataFrame)
  : result (globals * Series) :=
  port <- trade_model ext px_close px_vol bk2mkt ;;
  let g := {| port_full_pd := Some port |} in
  pnl_cum <- backtest ext g px_close port ;;
  Ok (g, pnl_cum).

(** * Vocabulary of the properties *)

(** The three checks at the end of [windsorize]. *)
Definition windsorize_checks (out : vec) : Prop :=
  exists m s,
    mean out = Some m /\ Rabs m < 1/100 /\
    std out = Some s /\ Rabs (s - 1) < 1/100 /\
    max_abs out - 3 < 1/100.

(** All the entries of a cross-section are equal. *)
Definition zero_variance (v : vec) : Prop :=
  forall x y, In x v -> In y v -> x = y.

(** The momentum as the specification words it: the most recent close
    before day [t] over the close at the start of the 250-day lookback,
    minus one. *)
Definition momentum_claimed (t : Z) (px_close : DataFrame) : result vec :=
  recent <- iloc (t - 1) px_close ;;
  earlier <- iloc (t - 250) px_close ;;
  Ok (map (fun p => fst p / snd p - 1) (combine recent earlier)).

(** The volume as the specification words it: the mean over the four days
    [t-4] to [t-1]. *)
Definition volume_claimed (t : Z) (px_vol : DataFrame) : cross :=
  mean_axis0 (iloc_rows (t - 4) t px_vol).

(** The profit of one day: the dot product of the realised returns of date
    [t] with the position [w] held on that date. *)
Definition daily_pnl (ret_full : DataFrame) (t : date) (w : vec) (d : R) : Prop :=
  exists r, loc t ret_full = Ok r /\ dot r w = Ok d.

(** The outputs of the optimiser on consecutive days: each day starts from
    the output of the day before. *)
Inductive day_chain (ext : collaborators) (beta : vec) (sigma : matrix)
    (px_close px_vol bk2mkt : DataFrame) : Z -> vec -> list vec -> Prop :=
| chain_done (t : Z) (w : vec) :
    day_chain ext beta sigma px_close px_vol bk2mkt t w []
| chain_day (t : Z) (w o : vec) (os : list vec) :
    optimize_port ext w beta sigma px_close px_vol bk2mkt t = Ok o ->
    day_chain ext beta sigma px_close px_vol bk2mkt (t + 1) o os ->
    day_chain ext beta sigma px_close px_vol bk2mkt t w (o :: os).

(** The frame held by the loop is the one built from its array. *)
Definition framed (px_close : DataFrame) (st : loop_state) : Prop :=
  port_frame st
    = Some (mkFrame (Py.slice_from 250 (index px_close)) (columns px_close)
                    (port_full st)) /\
  length (port_full st) = length (Py.slice_from 250 (index px_close)).

(** The state the loop of [trade_model] starts from. *)
Definition trade_start (px_close : DataFrame) : loop_state :=
  mkLoop (repeat (zeros (length (columns px_close)))
                 (length (rows px_close) - 250))
         (zeros (length (columns px_close))) None.

(** The product of a matrix with a vector. *)
Definition mvmul (m : matrix) (x : vec) : vec :=
  map (fun r => vsum (map (fun p => fst p * snd p) (combine r x))) m.

(** The negation of a cross-section. *)
Definition cneg (c : cross) : cross :=
  match c with
  | Fin v => Fin (vneg v)
  | NaNs => NaNs
  end.

(** * Worked data *)

(** Simple daily returns: each close over the previous one, minus one. *)
Fixpoint simple_returns (prev : vec) (later : matrix) : matrix :=
  match later with
  | [] => []
  | r :: t => map (fun p => snd p / fst p - 1) (combine prev r)
              :: simple_returns r t
  end.

(** Collaborators for the worked runs: simple returns, unit betas, the
    identity as covariance with the eigenvalues [ev], and a solver that
    answers [x]. *)
Definition worked (ev : list R) (x : vec) : collaborators := {|
  calc_return := fun df =>
    match rows df with
    | [] => Ok []
    | r :: t => Ok (simple_returns r t)
    end;
  linreg_coef := fun _ _ => Ok 1;
  ledoit_wolf := fun ret => Ok (identity (length (hd [] ret)));
  eigvals := fun _ => Ok ev;
  qp := fun _ _ _ _ _ _ => Ok x
|}.

(** One asset over 252 days: the close is 1 on days 0 and 1, 3 on days 2 to
    249, and 2 on days 250 and 251; the price has doubled over the lookback
    of day 251. *)
Definition px_doubled : DataFrame :=
  mkFrame (seq 0 252) [0%nat] ([1] :: [1] :: repeat [3] 248 ++ [[2]; [2]]).

(** One asset over 251 days: the volume is 4 on day 245, 8 on day 249 and 0
    on every other day. *)
Definition vol_spiked : DataFrame :=
  mkFrame (seq 0 251) [0%nat]
          (repeat [0] 245 ++ [[4]; [0]; [0]; [0]; [8]; [0]]).

(** Two assets over two days. *)
Definition px_two_days : DataFrame :=
  mkFrame [0; 1]%nat [0; 1]%nat [[1; 1]; [2; 4]].

(** One asset over three days, and the positions held on the last two. *)
Definition px_three_days : DataFrame :=
  mkFrame [0; 1; 2]%nat [0%nat] [[1]; [2]; [4]].

Definition held_two_days : DataFrame :=
  mkFrame [1; 2]%nat [0%nat] [[10]; [20]].

(** Three assets over 251 days. *)
Definition px_worked : DataFrame :=
  mkFrame (seq 0 251) [0; 1; 2]%nat ([1; 2; 3] :: repeat [1; 1; 1] 250).

Definition vol_worked : DataFrame :=
  mkFrame (seq 0 251) [0; 1; 2]%nat (repeat [1; 2; 3] 251).

Definition b2m_worked : DataFrame :=
  mkFrame (seq 0 251) [0; 1; 2]%nat (repeat [3; 2; 1] 251).

(** The worked closes and volumes with other values on day 250. *)
Definition px_worked_later : DataFrame :=
  mkFrame (seq 0 251) [0; 1; 2]%nat
          ([1; 2; 3] :: repeat [1; 1; 1] 249 ++ [[9; 9; 9]]).

Definition vol_worked_later : DataFrame :=
  mkFrame (seq 0 251) [0; 1; 2]%nat (repeat [1; 2; 3] 250 ++ [[7; 7; 7]]).

(** Three assets over 250 days only. *)
Definition px_short : DataFrame :=
  mkFrame (seq 0 250) [0; 1; 2]%nat (repeat [1; 1; 1] 250).

(** * Properties *)

(** ** Case analysis on real comparisons *)

Ltac real_cases :=
  unfold Rltb, Reqb, Rmin, Rmax, Rabs in *;
  repeat match goal with
  | |- context [Rlt_dec ?a ?b] => destruct (Rlt_dec a b)
  | |- context [Req_dec_T ?a ?b] => destruct (Req_dec_T a b)
  | |- context [Rle_dec ?a ?b] => destruct (Rle_dec a b)
  | |- context [Rcase_abs ?a] => destruct (Rcase_abs a)
  | H : context [Rlt_dec ?a ?b] |- _ => destruct (Rlt_dec a b)
  | H : context [Req_dec_T ?a ?b] |- _ => destruct (Req_dec_T a b)
  | H : context [Rle_dec ?a ?b] |- _ => destruct (Rle_dec a b)
  | H : context [Rcase_abs ?a] |- _ => destruct (Rcase_abs a)
  end;
  intros; try lra.

(** Equality of two vectors of the same length, entry by entry. *)
Ltac vec_eq :=
  repeat (apply (f_equal2 (@cons R)); [lra|]); reflexivity.

Lemma Rltb_true (x y : R) : Rltb x y = true <-> x < y.
Proof. unfold Rltb. destruct (Rlt_dec x y); split; intros; try easy. Qed.

Lemma Rltb_false (x y : R) : Rltb x y = false <-> y <= x.
Proof.
  unfold Rltb. destruct (Rlt_dec x y); split; intros; try easy; try lra.
Qed.

Lemma Reqb_true (x y : R) : Reqb x y = true <-> x = y.
Proof. unfold Reqb. destruct (Req_dec_T x y); split; intros; easy. Qed.

Lemma Reqb_false (x y : R) : Reqb x y = false <-> x <> y.
Proof. unfold Reqb. destruct (Req_dec_T x y); split; intros; easy. Qed.

(** ** Constraint builder *)

Lemma vsum_abs_nonneg (w : vec) : 0 <= vsum (map Rabs w).
Proof.
  induction w as [|x w IH]; simpl; [lra|].
  pose proof (Rabs_pos x). lra.
Qed.

Lemma vsum_positive_part_nonneg (w : vec) :
  0 <= vsum (filter (fun x => Rltb 0 x) w).
Proof.
  induction w as [|x w IH]; simpl; [lra|].
  destruct (Rltb 0 x) eqn:E; simpl; [|exact IH].
  apply Rltb_true in E. lra.
Qed.

Lemma size_caps_nonneg (w : vec) :
  0 <= fst (size_caps w) /\ 0 <= snd (size_caps w).
Proof.
  unfold size_caps.
  pose proof (vsum_abs_nonneg w) as Ha.
  pose proof (vsum_positive_part_nonneg w) as Hp.
  destruct (Reqb (vsum (map Rabs w)) 0); simpl; [lra|].
  split; unfold Rmin;
    repeat match goal with
    | |- context [Rle_dec ?a ?b] => destruct (Rle_dec a b)
    end; lra.
Qed.

Lemma max_size_eq (w : vec) :
  max_size w =
  (map (fun x => Rmax (x - fst (size_caps w)) (- snd (size_caps w))) w,
   map (fun x => Rmin (x + fst (size_caps w)) (snd (size_caps w))) w).
Proof. unfold max_size. destruct (size_caps w); reflexivity. Qed.

(** One entry: the lower bound is below the upper bound exactly when the
    position is within [theta + pi] of zero. *)
Lemma bound_ordered_iff (x theta pi : R) :
  0 <= theta -> 0 <= pi ->
  (Rmax (x - theta) (- pi) <= Rmin (x + theta) pi <-> Rabs x <= theta + pi).
Proof.
  intros Ht Hp. split; real_cases.
Qed.

(** C2, as stated, fails on a single position of 100: the trade cap is 1, the
    position cap 10, so the bounds are [99] and [10]. *)
Lemma max_size_bounds_crossed :
  max_size [100] = ([99], [10]) /\
  ~ Forall2 Rle (fst (max_size [100])) (snd (max_size [100])).
Proof.
  assert (E : max_size [100] = ([99], [10])).
  { unfold max_size, size_caps. simpl.
    replace (Reqb (Rabs 100 + 0) 0) with false
      by (symmetry; apply Reqb_false; real_cases).
    replace (Rabs 100 + 0) with 100 by real_cases.
    replace (Rltb 0 100) with true by (symmetry; apply Rltb_true; lra).
    simpl. repeat f_equal; real_cases. }
  split; [exact E|].
  rewrite E. simpl. intros H. inversion H; subst. lra.
Qed.

(** C2 (amended): when every entry of the prior position is within
    [theta + pi] of zero, for the caps [theta] and [pi] that [max_size]
    computes, the lower bounds are elementwise below the upper bounds. *)
Theorem max_size_bounds_ordered (w : vec) :
  Forall (fun x => Rabs x <= fst (size_caps w) + snd (size_caps w)) w ->
  Forall2 Rle (fst (max_size w)) (snd (max_size w)).
Proof.
  intros H. rewrite max_size_eq. simpl.
  destruct (size_caps_nonneg w) as [Ht Hp].
  set (theta := fst (size_caps w)) in *.
  set (pi := snd (size_caps w)) in *.
  clearbody theta pi.
  induction H as [|x l Hx Hl IH]; simpl; constructor.
  - apply bound_ordered_iff; assumption.
  - exact IH.
Qed.

(** The condition is also necessary. *)
Lemma ordered_bounds_within_caps (w : vec) :
  Forall2 Rle (fst (max_size w)) (snd (max_size w)) ->
  Forall (fun x => Rabs x <= fst (size_caps w) + snd (size_caps w)) w.
Proof.
  rewrite max_size_eq. simpl.
  destruct (size_caps_nonneg w) as [Ht Hp].
  set (theta := fst (size_caps w)) in *.
  set (pi := snd (size_caps w)) in *.
  clearbody theta pi.
  induction w as [|x w IH]; simpl; intros H; [constructor|].
  inversion H; subst. constructor.
  - apply bound_ordered_iff; assumption.
  - apply IH. assumption.
Qed.

Lemma size_caps_ten_ones : size_caps (repeat 1 10%nat) = (1/10, 1).
Proof.
  unfold size_caps. simpl.
  replace (Rltb 0 1) with true by (symmetry; apply Rltb_true; lra).
  simpl.
  assert (E : Rabs 1 = 1) by real_cases. rewrite E.
  replace (Reqb _ 0) with false by (symmetry; apply Reqb_false; lra).
  f_equal; real_cases.
Qed.

Lemma max_size_bounds_ordered_witness :
  Forall (fun x => Rabs x <= fst (size_caps (repeat 1 10%nat))
                             + snd (size_caps (repeat 1 10%nat)))
         (repeat 1 10%nat) /\
  Forall2 Rle (fst (max_size (repeat 1 10%nat))) (snd (max_size (repeat 1 10%nat))).
Proof.
  assert (H : Forall (fun x => Rabs x <= fst (size_caps (repeat 1 10%nat))
                             + snd (size_caps (repeat 1 10%nat)))
         (repeat 1 10%nat)).
  { rewrite size_caps_ten_ones. simpl.
    assert (E : Rabs 1 <= 1 / 10 + 1) by real_cases.
    repeat (apply Forall_cons; [exact E|]). apply Forall_nil. }
  split; [exact H|].
  apply (max_size_bounds_ordered (repeat 1 10%nat)). exact H.
Defined.

(** ** Signal normaliser *)

Lemma windsorize_loop_NaNs (k : nat) : windsorize_loop k NaNs = NaNs.
Proof. induction k; simpl; auto. Qed.

Lemma vsum_constant (c : R) (v : vec) :
  (forall x, In x v -> x = c) -> vsum v = c * INR (length v).
Proof.
  induction v as [|x v IH]; intros H.
  - simpl. lra.
  - change (vsum (x :: v)) with (x + vsum v).
    change (length (x :: v)) with (S (length v)).
    rewrite S_INR, IH by (intros; apply H; right; assumption).
    rewrite (H x) by (left; reflexivity). lra.
Qed.

Lemma mean_constant (v : vec) (m : R) :
  zero_variance v -> mean v = Some m -> forall x, In x v -> x = m.
Proof.
  intros Hz Hm x Hx.
  destruct v as [|a v]; [destruct Hx|].
  assert (E : Some (vsum (a :: v) / INR (length (a :: v))) = Some m)
    by exact Hm.
  rewrite (vsum_constant x (a :: v)) in E
    by (intros y Hy; apply Hz; assumption).
  assert (E' : x * INR (length (a :: v)) / INR (length (a :: v)) = m)
    by congruence.
  rewrite <- E'. field.
  apply not_0_INR. discriminate.
Qed.

Lemma vsum_squares_zero (m : R) (v : vec) :
  (forall x, In x v -> x = m) ->
  vsum (map (fun x => (x - m) * (x - m)) v) = 0.
Proof.
  induction v as [|x v IH]; intros H; simpl; [reflexivity|].
  rewrite IH by (intros; apply H; right; assumption).
  rewrite (H x) by (left; reflexivity). lra.
Qed.

Lemma std_zero_variance (v : vec) :
  zero_variance v -> std v = None \/ std v = Some 0.
Proof.
  intros Hz. unfold std.
  destruct (mean v) as [m|] eqn:Hm; [|left; reflexivity].
  destruct (length v <=? 1)%nat; [left; reflexivity|right].
  rewrite vsum_squares_zero by (apply mean_constant; assumption).
  unfold Rdiv. rewrite Rmult_0_l, sqrt_0. reflexivity.
Qed.

Lemma standardize_zero_variance (v : vec) :
  zero_variance v -> standardize (Fin v) = NaNs.
Proof.
  intros Hz. unfold standardize.
  destruct (mean v) as [m|]; [|reflexivity].
  destruct (std_zero_variance v Hz) as [E|E]; rewrite E; [reflexivity|].
  replace (Reqb 0 0) with true by (symmetry; apply Reqb_true; reflexivity).
  reflexivity.
Qed.

(** C8: on a cross-section whose entries are all equal the normaliser never
    returns, whatever the number of iterations: the standard deviation is
    zero (or undefined), the standardised values are NaN, and the checks at
    the end raise. *)
Theorem windsorize_zero_variance_fails (v : vec) (n : nat) :
  zero_variance v -> windsorize (Fin v) n = Raise AssertionError.
Proof.
  intros Hz. unfold windsorize. destruct n as [|k].
  - simpl. destruct (mean v) as [m|] eqn:Hm; simpl; [|reflexivity].
    destruct (Rltb (Rabs m) (1/100)); simpl; [|reflexivity].
    destruct (std_zero_variance v Hz) as [E|E]; rewrite E; simpl;
      [reflexivity|].
    replace (Rltb (Rabs (0 - 1)) (1/100)) with false; [reflexivity|].
    symmetry. apply Rltb_false. real_cases.
  - change (windsorize_loop (S k) (Fin v))
      with (windsorize_loop k (clip (standardize (Fin v)))).
    rewrite standardize_zero_variance by assumption.
    simpl. rewrite windsorize_loop_NaNs. reflexivity.
Qed.

Lemma windsorize_zero_variance_fails_witness :
  zero_variance [5; 5; 5] /\
  windsorize (Fin [5; 5; 5]) 10 = Raise AssertionError.
Proof.
  assert (H : zero_variance [5; 5; 5]).
  { intros x y Hx Hy. simpl in Hx, Hy.
    repeat match goal with H : _ \/ _ |- _ => destruct H end;
      subst; try reflexivity; contradiction. }
  split; [exact H|].
  apply (windsorize_zero_variance_fails [5; 5; 5] 10 H).
Defined.

Lemma windsorize_loop_S (k : nat) (out : cross) :
  windsorize_loop (S k) out = windsorize_loop k (clip (standardize out)).
Proof. reflexivity. Qed.

Lemma mean_three (a b c : R) : mean [a; b; c] = Some ((a + b + c) / 3).
Proof. unfold mean. simpl. f_equal. lra. Qed.

Lemma std_three (c d : R) : 0 <= d -> std [c - d; c; c + d] = Some d.
Proof.
  intros Hd. unfold std. rewrite mean_three. simpl.
  f_equal. transitivity (sqrt (d * d)); [|apply sqrt_square; assumption].
  f_equal. field.
Qed.

(** Three equally spaced values standardise to [-1; 0; 1]. *)
Lemma standardize_three (c d : R) :
  0 < d -> standardize (Fin [c - d; c; c + d]) = Fin [-1; 0; 1].
Proof.
  intros Hd. unfold standardize.
  rewrite mean_three, std_three by lra.
  replace (Reqb d 0) with false by (symmetry; apply Reqb_false; lra).
  simpl. repeat f_equal; field; lra.
Qed.

Lemma clip_unit : clip (Fin [-1; 0; 1]) = Fin [-1; 0; 1].
Proof.
  unfold clip, clip3. simpl.
  replace (Rltb 3 (Rabs (-1))) with false
    by (symmetry; apply Rltb_false; real_cases).
  replace (Rltb 3 (Rabs 0)) with false
    by (symmetry; apply Rltb_false; real_cases).
  replace (Rltb 3 (Rabs 1)) with false
    by (symmetry; apply Rltb_false; real_cases).
  reflexivity.
Qed.

Lemma windsorize_loop_unit (k : nat) :
  windsorize_loop k (Fin [-1; 0; 1]) = Fin [-1; 0; 1].
Proof.
  induction k as [|k IH]; [reflexivity|].
  rewrite windsorize_loop_S.
  replace [-1; 0; 1] with [0 - 1; 0; 0 + 1] at 1 by (repeat f_equal; lra).
  rewrite standardize_three by lra. rewrite clip_unit. exact IH.
Qed.

Lemma max_abs_unit : max_abs [-1; 0; 1] = 1.
Proof.
  unfold max_abs. simpl.
  assert (E1 : Rabs (-1) = 1) by real_cases.
  assert (E0 : Rabs 0 = 0) by real_cases.
  assert (E2 : Rabs 1 = 1) by real_cases.
  rewrite E1, E0, E2.
  replace (Rltb 1 0) with false by (symmetry; apply Rltb_false; lra).
  replace (Rltb 1 1) with false by (symmetry; apply Rltb_false; lra).
  reflexivity.
Qed.

Lemma windsorize_checks_unit : windsorize_checks [-1; 0; 1].
Proof.
  exists 0, 1. rewrite max_abs_unit. repeat split.
  - rewrite mean_three. f_equal. lra.
  - real_cases.
  - replace [-1; 0; 1] with [0 - 1; 0; 0 + 1] by (repeat f_equal; lra).
    apply std_three. lra.
  - real_cases.
  - lra.
Qed.

Lemma windsorize_checks_pass (out : vec) :
  windsorize_checks out ->
  (_ <- assert (lt_nan (option_map Rabs (mean out)) (1/100)) ;;
   _ <- assert (lt_nan (option_map (fun s => Rabs (s - 1)) (std out)) (1/100)) ;;
   _ <- assert (Rltb (max_abs out - 3) (1/100)) ;;
   Ok out) = Ok out.
Proof.
  intros (m & s & Hm & Hm' & Hs & Hs' & Hx).
  rewrite Hm, Hs. simpl.
  apply Rltb_true in Hm', Hs', Hx. rewrite Hm', Hs', Hx. reflexivity.
Qed.

Lemma windsorize_unit (k : nat) : windsorize (Fin [-1; 0; 1]) k = Ok [-1; 0; 1].
Proof.
  unfold windsorize. rewrite windsorize_loop_unit.
  apply windsorize_checks_pass, windsorize_checks_unit.
Qed.

(** Three equally spaced values are normalised to [-1; 0; 1]. *)
Lemma windsorize_three (c d : R) (k : nat) :
  0 < d -> windsorize (Fin [c - d; c; c + d]) (S k) = Ok [-1; 0; 1].
Proof.
  intros Hd. unfold windsorize.
  rewrite windsorize_loop_S, standardize_three, clip_unit by assumption.
  rewrite windsorize_loop_unit.
  apply windsorize_checks_pass, windsorize_checks_unit.
Qed.

(** C5, as stated, fails on [-1; 0; 1]: its deviation is 1, ten iterations
    return it unchanged, and its largest magnitude is 1, two away from 3. *)
Lemma windsorize_max_not_near_three :
  std [-1; 0; 1] = Some 1 /\
  windsorize (Fin [-1; 0; 1]) 10 = Ok [-1; 0; 1] /\
  ~ Rabs (max_abs [-1; 0; 1] - 3) < 1/100.
Proof.
  split; [|split].
  - replace [-1; 0; 1] with [0 - 1; 0; 0 + 1] by (repeat f_equal; lra).
    apply std_three. lra.
  - apply windsorize_unit.
  - rewrite max_abs_unit. real_cases.
Qed.

(** C5 (amended): a vector returned by the normaliser is the result of the
    iterations and passes the three checks: mean within 0.01 of zero,
    deviation within 0.01 of one, largest magnitude below 3.01.  When the
    result of the iterations does not pass them, the normaliser raises
    instead of returning. *)
Theorem windsorize_checked (raw : cross) (n : nat) :
  (forall out, windsorize raw n = Ok out ->
     windsorize_loop n raw = Fin out /\ windsorize_checks out) /\
  ((forall out, windsorize_loop n raw = Fin out -> ~ windsorize_checks out) ->
     windsorize raw n = Raise AssertionError).
Proof.
  unfold windsorize.
  destruct (windsorize_loop n raw) as [v|]; [|split; [discriminate|reflexivity]].
  unfold windsorize_checks, assert, lt_nan.
  destruct (mean v) as [m|] eqn:Hm; simpl;
    [|split; [discriminate|reflexivity]].
  destruct (Rltb (Rabs m) (1/100)) eqn:Em; simpl;
    [|split; [discriminate|reflexivity]].
  destruct (std v) as [s|] eqn:Hs; simpl;
    [|split; [discriminate|reflexivity]].
  destruct (Rltb (Rabs (s - 1)) (1/100)) eqn:Es; simpl;
    [|split; [discriminate|reflexivity]].
  destruct (Rltb (max_abs v - 3) (1/100)) eqn:Ex; simpl;
    [|split; [discriminate|reflexivity]].
  apply Rltb_true in Em, Es, Ex.
  split.
  - intros out E. injection E as <-. split; [reflexivity|].
    exists m, s. repeat split; assumption.
  - intros H. exfalso. apply (H v eq_refl).
    exists m, s. repeat split; assumption.
Qed.

Lemma windsorize_checked_witness :
  windsorize (Fin [2; 3; 4]) 10 = Ok [-1; 0; 1] /\
  windsorize_loop 10 (Fin [2; 3; 4]) = Fin [-1; 0; 1] /\
  windsorize_checks [-1; 0; 1].
Proof.
  assert (H : windsorize (Fin [2; 3; 4]) 10 = Ok [-1; 0; 1]).
  { replace [2; 3; 4] with [3 - 1; 3; 3 + 1] by (repeat f_equal; lra).
    apply windsorize_three. lra. }
  split; [exact H|].
  exact (proj1 (windsorize_checked (Fin [2; 3; 4]) 10) [-1; 0; 1] H).
Defined.

(** ** Slices and indices *)

Lemma slice_inside {A : Type} (a b : Z) (l : list A) :
  (0 <= a <= b)%Z -> (b <= Z.of_nat (length l))%Z ->
  Py.slice a b l = firstn (Z.to_nat (b - a)) (skipn (Z.to_nat a) l).
Proof.
  intros Ha Hb. unfold Py.slice, Py.clamp.
  replace (a <? 0)%Z with false by lia.
  replace (b <? 0)%Z with false by lia.
  rewrite !Z.min_l by lia. f_equal. lia.
Qed.

Lemma slice_inside_length {A : Type} (a b : Z) (l : list A) :
  (0 <= a <= b)%Z -> (b <= Z.of_nat (length l))%Z ->
  length (Py.slice a b l) = Z.to_nat (b - a).
Proof.
  intros Ha Hb. rewrite slice_inside by assumption.
  rewrite length_firstn, length_skipn. lia.
Qed.

Lemma index_inside {A : Type} (i : Z) (l : list A) :
  (0 <= i < Z.of_nat (length l))%Z ->
  exists x, nth_error l (Z.to_nat i) = Some x /\ Py.index i l = Ok x.
Proof.
  intros Hi. unfold Py.index.
  replace (i <? 0)%Z with false by lia.
  replace ((i <? 0)%Z || (Z.of_nat (length l) <=? i)%Z)%bool with false
    by (symmetry; apply orb_false_iff; split; lia).
  destruct (nth_error l (Z.to_nat i)) as [x|] eqn:E.
  - exists x. split; reflexivity.
  - apply nth_error_None in E. lia.
Qed.

Lemma index_from_end {A : Type} (l : list A) :
  (0 < length l)%nat ->
  Py.index (-1) l = Py.index (Z.of_nat (length l) - 1) l.
Proof.
  intros Hl. unfold Py.index.
  replace (-1 <? 0)%Z with true by reflexivity.
  replace (Z.of_nat (length l) - 1 <? 0)%Z with false by lia.
  replace (-1 + Z.of_nat (length l))%Z with (Z.of_nat (length l) - 1)%Z by lia.
  reflexivity.
Qed.

Lemma index_slice {A : Type} (a b i : Z) (l : list A) :
  (0 <= a)%Z -> (b <= Z.of_nat (length l))%Z -> (0 <= i < b - a)%Z ->
  Py.index i (Py.slice a b l) = Py.index (a + i) l.
Proof.
  intros Ha Hb Hi.
  destruct (index_inside i (Py.slice a b l)) as (x & Hx & ->).
  { rewrite slice_inside_length by lia. lia. }
  destruct (index_inside (a + i) l) as (y & Hy & ->); [lia|].
  rewrite slice_inside in Hx by lia.
  rewrite nth_error_firstn in Hx.
  replace (Z.to_nat i <? Z.to_nat (b - a))%nat with true in Hx
    by (symmetry; apply Nat.ltb_lt; lia).
  rewrite nth_error_skipn in Hx.
  replace (Z.to_nat a + Z.to_nat i)%nat with (Z.to_nat (a + i)) in Hx by lia.
  congruence.
Qed.

Lemma slice_week {A : Type} (t : Z) (l : list A) :
  (5 <= t)%Z -> (t <= Z.of_nat (length l))%Z ->
  Py.slice (-5) (-1) (Py.slice (t - 5) t l) = Py.slice (t - 5) (t - 1) l.
Proof.
  intros Ht Hl.
  assert (H5 : length (Py.slice (t - 5) t l) = 5%nat)
    by (rewrite slice_inside_length by lia; lia).
  unfold Py.slice at 1. rewrite H5.
  change (Z.to_nat (Py.clamp (Z.of_nat 5) (-5))) with 0%nat.
  change (Z.to_nat (Py.clamp (Z.of_nat 5) (-1))) with 4%nat.
  rewrite !slice_inside by lia.
  replace (Z.to_nat (t - (t - 5))) with 5%nat by lia.
  replace (Z.to_nat (t - 1 - (t - 5))) with 4%nat by lia.
  cbn [skipn Nat.sub]. rewrite firstn_firstn. reflexivity.
Qed.

(** ** Momentum sub-signal *)

(** The raw momentum of day [t] is the close of day [t - 250] over the close
    of day [t - 1], minus one. *)
Lemma mom_ret_rows (t : Z) (px_close : DataFrame) :
  (250 <= t)%Z -> (t <= Z.of_nat (length (rows px_close)))%Z ->
  mom_ret (iloc_rows (t - 250) t px_close) =
  (first <- iloc (t - 250) px_close ;;
   last <- iloc (t - 1) px_close ;;
   Ok (map (fun p => fst p / snd p - 1) (combine first last))).
Proof.
  intros Ht Hl. unfold mom_ret, iloc, iloc_rows. cbn [rows].
  rewrite index_from_end
    by (rewrite slice_inside_length by lia; lia).
  rewrite slice_inside_length by lia.
  rewrite !index_slice by lia.
  replace (t - 250 + 0)%Z with (t - 250)%Z by lia.
  replace (t - 250 + (Z.of_nat (Z.to_nat (t - (t - 250))) - 1))%Z
    with (t - 1)%Z by lia.
  reflexivity.
Qed.

Lemma mom_ret_window (idx : list date) (cols : list label) (a b c d e : vec) :
  mom_ret (iloc_rows (251 - 250) 251
             (mkFrame idx cols (a :: b :: repeat c 248 ++ [d; e]))) =
  Ok (map (fun p => fst p / snd p - 1) (combine b d)).
Proof. vm_compute. reflexivity. Qed.

Lemma momentum_claimed_window (idx : list date) (cols : list label)
    (a b c d e : vec) :
  momentum_claimed 251 (mkFrame idx cols (a :: b :: repeat c 248 ++ [d; e])) =
  Ok (map (fun p => fst p / snd p - 1) (combine d b)).
Proof. vm_compute. reflexivity. Qed.

(** C3: on day 251 of [px_doubled] the raw momentum computed by the code is
    the first close of the window over the last one, minus one, that is
    -1/2, where the claim's ratio of the most recent close to the earlier
    one, minus one, is 1. *)
Theorem mom_ret_inverted :
  mom_ret (iloc_rows (251 - 250) 251 px_doubled) = Ok [-1/2] /\
  momentum_claimed 251 px_doubled = Ok [1].
Proof.
  unfold px_doubled. rewrite mom_ret_window, momentum_claimed_window.
  simpl. split; do 2 f_equal; lra.
Qed.

(** ** Volume sub-signal *)

(** The raw volume of day [t] is the mean over the days [t - 5] to
    [t - 2]. *)
Lemma vol_avg_rows (t : Z) (px_vol : DataFrame) :
  (5 <= t)%Z -> (t <= Z.of_nat (length (rows px_vol)))%Z ->
  vol_avg (iloc_rows (t - 5) t px_vol) =
  mean_axis0 (mkFrame (Py.slice (-5) (-1) (Py.slice (t - 5) t (index px_vol)))
                      (columns px_vol)
                      (Py.slice (t - 5) (t - 1) (rows px_vol))).
Proof.
  intros Ht Hl. unfold vol_avg, iloc_rows. cbn [rows index columns].
  rewrite (slice_week t (rows px_vol)) by assumption. reflexivity.
Qed.

Lemma vol_avg_window (idx : list date) (cols : list label)
    (z a b c d e f : vec) :
  vol_avg (iloc_rows (250 - 5) 250
             (mkFrame idx cols (repeat z 245 ++ [a; b; c; d; e; f]))) =
  mean_axis0 (mkFrame (Py.slice (-5) (-1) (Py.slice (250 - 5) 250 idx)) cols
                      [a; b; c; d]).
Proof. vm_compute. reflexivity. Qed.

Lemma volume_claimed_window (idx : list date) (cols : list label)
    (z a b c d e f : vec) :
  volume_claimed 250 (mkFrame idx cols (repeat z 245 ++ [a; b; c; d; e; f])) =
  mean_axis0 (mkFrame (Py.slice (250 - 4) 250 idx) cols [b; c; d; e]).
Proof. vm_compute. reflexivity. Qed.

(** C4: on day 250 of [vol_spiked] the raw volume computed by the code is the
    mean over the days 245 to 248, that is 1, where the claim's mean over
    the days 246 to 249 is 2. *)
Theorem vol_avg_window_shifted :
  vol_avg (iloc_rows (250 - 5) 250 vol_spiked) = Fin [1] /\
  volume_claimed 250 vol_spiked = Fin [2].
Proof.
  unfold vol_spiked. rewrite vol_avg_window, volume_claimed_window.
  unfold mean_axis0, column. simpl. split; do 2 f_equal; lra.
Qed.

(** ** Covariance estimator *)

Lemma forallb_Rltb (l : list R) :
  forallb (fun x => Rltb 0 x) l = true <-> Forall (fun x => 0 < x) l.
Proof.
  rewrite forallb_forall, Forall_forall.
  split; intros H x Hx; apply Rltb_true, H, Hx.
Qed.

(** C9: a matrix returned by [sigma_model] is the shrinkage estimate and all
    of its eigenvalues are strictly positive; when an eigenvalue of the
    estimate is zero or negative, [sigma_model] raises instead of returning
    it. *)
Theorem sigma_model_positive (ext : collaborators) (px_close : DataFrame) :
  (forall sigma, sigma_model ext px_close = Ok sigma ->
     exists ret ev,
       calc_return ext px_close = Ok ret /\ ledoit_wolf ext ret = Ok sigma /\
       eigvals ext sigma = Ok ev /\ Forall (fun x => 0 < x) ev) /\
  (forall ret sigma ev,
     calc_return ext px_close = Ok ret -> ledoit_wolf ext ret = Ok sigma ->
     eigvals ext sigma = Ok ev -> Exists (fun x => x <= 0) ev ->
     sigma_model ext px_close = Raise AssertionError).
Proof.
  unfold sigma_model. split.
  - intros sigma H.
    destruct (calc_return ext px_close) as [ret|] eqn:Hr; [|discriminate].
    simpl in H.
    destruct (ledoit_wolf ext ret) as [sg|] eqn:Hl; [|discriminate].
    simpl in H.
    destruct (eigvals ext sg) as [ev|] eqn:He; [|discriminate].
    simpl in H.
    destruct (forallb (fun x => Rltb 0 x) ev) eqn:Hf; [|discriminate].
    simpl in H. injection H as <-.
    exists ret, ev. repeat split; try assumption.
    apply forallb_Rltb, Hf.
  - intros ret sigma ev Hr Hl He Hx.
    rewrite Hr. simpl. rewrite Hl. simpl. rewrite He. simpl.
    destruct (forallb (fun x => Rltb 0 x) ev) eqn:Hf; [|reflexivity].
    exfalso. apply forallb_Rltb in Hf.
    apply Exists_exists in Hx. destruct Hx as (x & Hin & Hle).
    rewrite Forall_forall in Hf. specialize (Hf x Hin). lra.
Qed.

Lemma sigma_model_worked (ev : list R) (x : vec) :
  Forall (fun e => 0 < e) ev ->
  sigma_model (worked ev x) px_two_days = Ok (identity 2).
Proof.
  intros H. apply forallb_Rltb in H.
  unfold sigma_model, worked, px_two_days. simpl.
  unfold assert. simpl in H. rewrite H. reflexivity.
Qed.

Lemma sigma_model_positive_witness :
  sigma_model (worked [1; 2] []) px_two_days = Ok (identity 2) /\
  exists ret ev,
    calc_return (worked [1; 2] []) px_two_days = Ok ret /\
    ledoit_wolf (worked [1; 2] []) ret = Ok (identity 2) /\
    eigvals (worked [1; 2] []) (identity 2) = Ok ev /\
    Forall (fun x => 0 < x) ev.
Proof.
  assert (H : sigma_model (worked [1; 2] []) px_two_days = Ok (identity 2)).
  { apply sigma_model_worked. repeat constructor; lra. }
  split; [exact H|].
  exact (proj1 (sigma_model_positive (worked [1; 2] []) px_two_days)
               (identity 2) H).
Defined.

(** ** Backtest evaluator *)

(** C10: two calls of [backtest] that differ only in the argument passed for
    [port_full] give the same result; the portfolio that is read is the
    global [port_full_pd]. *)
Theorem backtest_ignores_port_full (ext : collaborators) (g : globals)
    (px_close port_full1 port_full2 : DataFrame) :
  backtest ext g px_close port_full1 = backtest ext g px_close port_full2.
Proof. reflexivity. Qed.

(** With the global unset the call raises, whatever frame is passed. *)
Lemma backtest_needs_global (port_full : DataFrame) :
  backtest (worked [] []) {| port_full_pd := None |} px_three_days port_full
  = Raise NameError.
Proof. reflexivity. Qed.

Lemma cumsum_from_length (acc : R) (v : vec) :
  length (cumsum_from acc v) = length v.
Proof. revert acc. induction v; intros; simpl; auto. Qed.

Lemma cumsum_from_nth (v : vec) (acc : R) (i : nat) :
  (i < length v)%nat ->
  nth i (cumsum_from acc v) 0 = acc + vsum (firstn (S i) v).
Proof.
  revert acc i. induction v as [|x v IH]; intros acc i Hi; simpl in Hi; [lia|].
  destruct i as [|i].
  - simpl. lra.
  - change (nth (S i) (cumsum_from acc (x :: v)) 0)
      with (nth i (cumsum_from (acc + x) v) 0).
    rewrite IH by lia.
    change (firstn (S (S i)) (x :: v)) with (x :: firstn (S i) v).
    change (vsum (x :: firstn (S i) v)) with (x + vsum (firstn (S i) v)).
    lra.
Qed.

Lemma find_date_skip (t : date) (pre : list date) (rpre : matrix)
    (rest : list (date * vec)) :
  ~ In t pre -> length pre = length rpre ->
  find (fun p => (fst p =? t)%nat) (combine pre rpre ++ rest) =
  find (fun p => (fst p =? t)%nat) rest.
Proof.
  revert rpre. induction pre as [|a pre IH]; intros rpre Hn Hl.
  - reflexivity.
  - destruct rpre as [|r rpre]; [discriminate|]. simpl.
    destruct (Nat.eqb_spec a t) as [->|Hne].
    + exfalso. apply Hn. left. reflexivity.
    + apply IH; [|simpl in Hl; lia].
      intros Hin. apply Hn. right. exact Hin.
Qed.

Lemma combine_app_same {A B : Type} (l1 l2 : list A) (m1 m2 : list B) :
  length l1 = length m1 ->
  combine (l1 ++ l2) (m1 ++ m2) = combine l1 m1 ++ combine l2 m2.
Proof.
  revert m1. induction l1 as [|a l1 IH]; intros m1 Hl;
    destruct m1 as [|b m1]; try discriminate; simpl; [reflexivity|].
  f_equal. apply IH. simpl in Hl. lia.
Qed.

(** The row of a frame found under a label that occurs once. *)
Lemma loc_middle (cols : list label) (pre post : list date)
    (rpre rpost : matrix) (t : date) (w : vec) :
  ~ In t pre -> length pre = length rpre ->
  loc t (mkFrame (pre ++ t :: post) cols (rpre ++ w :: rpost)) = Ok w.
Proof.
  intros Hn Hl. unfold loc. simpl.
  rewrite combine_app_same by assumption.
  rewrite find_date_skip by assumption.
  simpl. rewrite Nat.eqb_refl. reflexivity.
Qed.

Lemma set_values_skip (t : date) (x : R) (idx : list date) (vals : vec) :
  ~ In t idx ->
  map (fun p => if (fst p =? t)%nat then x else snd p) (combine idx vals) =
  firstn (length idx) vals.
Proof.
  revert vals. induction idx as [|a idx IH]; intros vals Hn.
  - reflexivity.
  - destruct vals as [|v vals]; [reflexivity|]. simpl.
    destruct (Nat.eqb_spec a t) as [->|Hne].
    + exfalso. apply Hn. left. reflexivity.
    + f_equal. apply IH. intros Hin. apply Hn. right. exact Hin.
Qed.

(** Assigning under a label that occurs once changes one value. *)
Lemma set_loc_middle (pre post : list date) (t : date) (x : R)
    (v1 v2 : vec) (v : R) :
  NoDup (pre ++ t :: post) -> length pre = length v1 ->
  length post = length v2 ->
  set_loc t x (mkSeries (pre ++ t :: post) (v1 ++ v :: v2)) =
  mkSeries (pre ++ t :: post) (v1 ++ x :: v2).
Proof.
  intros Hd Hl1 Hl2. unfold set_loc. simpl. f_equal.
  rewrite combine_app_same by assumption.
  rewrite map_app. simpl. rewrite Nat.eqb_refl.
  apply NoDup_remove_2 in Hd.
  rewrite !set_values_skip.
  - rewrite Hl1, Hl2, !firstn_all. reflexivity.
  - intros Hin. apply Hd, in_or_app. right. exact Hin.
  - intros Hin. apply Hd, in_or_app. left. exact Hin.
Qed.

Section Backtest.

Variables ret_full pf : DataFrame.
Hypothesis unique_dates : NoDup (index pf).

(** The loop over the dates of the portfolio: the dates already visited hold
    their daily profit, in order. *)
Lemma backtest_loop_inv (days : list date) :
  forall (pre : list date) (rpre rdays : matrix) (done todo : vec) (out : Series),
    index pf = pre ++ days -> rows pf = rpre ++ rdays ->
    length pre = length rpre -> length days = length rdays ->
    length pre = length done -> length days = length todo ->
    backtest_loop ret_full pf days (mkSeries (index pf) (done ++ todo)) = Ok out ->
    s_index out = index pf /\
    exists daily,
      Forall2 (fun tw d => daily_pnl ret_full (fst tw) (snd tw) d)
              (combine days rdays) daily /\
      s_values out = done ++ daily.
Proof.
  induction days as [|t days IH];
    intros pre rpre rdays done todo out Hi Hr Hl1 Hl2 Hl3 Hl4 H.
  - destruct todo; [|discriminate]. simpl in H. injection H as <-.
    split; [reflexivity|]. exists []. split; [constructor|reflexivity].
  - destruct rdays as [|w rdays]; [discriminate|].
    destruct todo as [|v todo]; [discriminate|].
    assert (Hn : ~ In t pre).
    { pose proof unique_dates as Hd. rewrite Hi in Hd.
      apply NoDup_remove_2 in Hd. intros Hin. apply Hd, in_or_app.
      left. exact Hin. }
    assert (Hw : loc t pf = Ok w).
    { destruct pf as [idx cols rws]. simpl in Hi, Hr. subst idx rws.
      apply loc_middle; assumption. }
    simpl in H. rewrite Hw in H.
    destruct (loc t ret_full) as [r|] eqn:Hret; [|discriminate].
    simpl in H.
    destruct (dot r w) as [d|] eqn:Hdot; [|discriminate].
    simpl in H.
    assert (Hset : set_loc t d (mkSeries (index pf) (done ++ v :: todo)) =
                   mkSeries (index pf) ((done ++ [d]) ++ todo)).
    { rewrite Hi. rewrite set_loc_middle.
      - rewrite <- app_assoc. reflexivity.
      - rewrite <- Hi. exact unique_dates.
      - exact Hl3.
      - simpl in Hl4. lia. }
    rewrite Hset in H.
    apply (IH (pre ++ [t]) (rpre ++ [w]) rdays) in H.
    + destruct H as (Hidx & daily & Hf & Hv).
      split; [exact Hidx|]. exists (d :: daily). split.
      * simpl. constructor; [|exact Hf]. exists r. split; assumption.
      * rewrite Hv, <- app_assoc. reflexivity.
    + rewrite <- app_assoc. exact Hi.
    + rewrite <- app_assoc. exact Hr.
    + rewrite !length_app. simpl. lia.
    + simpl in Hl2. lia.
    + rewrite !length_app. simpl. lia.
    + simpl in Hl4. lia.
Qed.

End Backtest.

(** C6: when [backtest] returns, its series carries the dates of the
    portfolio history and has as many values as the history has rows; the
    daily profits are the dot products of each row with the realised returns
    of the same date, and the value at each date is the sum of the daily
    profits up to that date. *)
Theorem backtest_running_sum (ext : collaborators) (g : globals)
    (px_close port_full pf : DataFrame) (out : Series) :
  port_full_pd g = Some pf ->
  NoDup (index pf) ->
  length (index pf) = length (rows pf) ->
  backtest ext g px_close port_full = Ok out ->
  s_index out = index pf /\
  length (s_values out) = length (rows pf) /\
  exists data ret_full daily,
    calc_return ext px_close = Ok data /\
    frame_of data (Py.slice_from 1 (index px_close)) (columns px_close)
      = Ok ret_full /\
    Forall2 (fun tw d => daily_pnl ret_full (fst tw) (snd tw) d)
            (combine (index pf) (rows pf)) daily /\
    forall i, (i < length (rows pf))%nat ->
      nth i (s_values out) 0 = vsum (firstn (S i) daily).
Proof.
  intros Hg Hd Hlen H. unfold backtest in H.
  destruct (calc_return ext px_close) as [data|] eqn:Hdata; [|discriminate].
  simpl in H.
  destruct (frame_of data (Py.slice_from 1 (index px_close)) (columns px_close))
    as [ret_full|] eqn:Hret; [|discriminate].
  simpl in H. rewrite Hg in H. simpl in H.
  unfold first_column_times_zero in H.
  destruct (columns pf) as [|c cols]; [discriminate|].
  simpl in H.
  destruct (backtest_loop ret_full pf (index pf) _) as [pnl|] eqn:Hloop;
    [|discriminate].
  simpl in H. injection H as <-.
  apply (backtest_loop_inv ret_full pf Hd (index pf) [] [] (rows pf) [] _ pnl)
    in Hloop; try reflexivity; try assumption;
    [|rewrite length_map; exact Hlen].
  destruct Hloop as (Hidx & daily & Hf & Hv). simpl in Hv.
  assert (Hdl : length daily = length (rows pf)).
  { apply Forall2_length in Hf. rewrite length_combine in Hf. lia. }
  unfold cumsum. cbn [s_values s_index]. rewrite Hv.
  split; [exact Hidx|]. split.
  - rewrite cumsum_from_length. exact Hdl.
  - exists data, ret_full, daily. repeat split; try assumption.
    intros i Hi. rewrite cumsum_from_nth by lia. lra.
Qed.

Lemma backtest_worked (port_full : DataFrame) :
  backtest (worked [] []) {| port_full_pd := Some held_two_days |}
           px_three_days port_full
  = Ok (mkSeries [1; 2]%nat [10; 30]).
Proof.
  cbv -[Rplus Rminus Rmult Rdiv Rinv Ropp IZR].
  do 2 f_equal. f_equal; [lra|]. f_equal. lra.
Qed.

Lemma backtest_running_sum_witness :
  s_index (mkSeries [1; 2]%nat [10; 30]) = index held_two_days /\
  length (s_values (mkSeries [1; 2]%nat [10; 30])) = length (rows held_two_days) /\
  exists data ret_full daily,
    calc_return (worked [] []) px_three_days = Ok data /\
    frame_of data (Py.slice_from 1 (index px_three_days)) (columns px_three_days)
      = Ok ret_full /\
    Forall2 (fun tw d => daily_pnl ret_full (fst tw) (snd tw) d)
            (combine (index held_two_days) (rows held_two_days)) daily /\
    forall i, (i < length (rows held_two_days))%nat ->
      nth i (s_values (mkSeries [1; 2]%nat [10; 30])) 0
      = vsum (firstn (S i) daily).
Proof.
  apply (backtest_running_sum (worked [] [])
           {| port_full_pd := Some held_two_days |}
           px_three_days held_two_days held_two_days).
  - reflexivity.
  - simpl. repeat constructor; simpl; intuition lia.
  - reflexivity.
  - apply backtest_worked.
Defined.

(** ** Rebalancing loop *)

Lemma set_nth_length {A : Type} (i : nat) (x : A) (l : list A) :
  length (Py.set_nth i x l) = length l.
Proof.
  revert i. induction l as [|h l IH]; intros [|i]; simpl; auto.
Qed.

Lemma set_nth_split {A : Type} (i : nat) (x : A) (l : list A) :
  (i < length l)%nat ->
  Py.set_nth i x l = firstn i l ++ x :: skipn (S i) l.
Proof.
  revert i. induction l as [|h l IH]; intros [|i] Hi; simpl in *;
    try lia; [reflexivity|].
  f_equal. apply IH. lia.
Qed.

Lemma firstn_past {A : Type} (l1 l2 : list A) (x : A) :
  firstn (S (length l1)) (l1 ++ x :: l2) = l1 ++ [x].
Proof.
  induction l1 as [|a l1 IH]; [reflexivity|].
  simpl. f_equal. exact IH.
Qed.

Lemma skipn_past {A : Type} (l1 l2 : list A) (x : A) (k : nat) :
  skipn (S (length l1) + k) (l1 ++ x :: l2) = skipn k l2.
Proof. induction l1 as [|a l1 IH]; [reflexivity|exact IH]. Qed.

(** Writing row [j] and then the rows after it. *)
Lemma set_nth_window {A : Type} (j len : nat) (x : A) (l stored : list A) :
  (j + S len <= length l)%nat ->
  firstn (S j) (Py.set_nth j x l) ++ stored
    ++ skipn (S j + len) (Py.set_nth j x l) =
  firstn j l ++ (x :: stored) ++ skipn (j + S len) l.
Proof.
  intros Hj. rewrite set_nth_split by lia.
  assert (Hl : length (firstn j l) = j) by (rewrite length_firstn; lia).
  rewrite <- Hl at 1 4.
  rewrite firstn_past, skipn_past, skipn_skipn, <- app_assoc.
  replace (len + S j)%nat with (j + S len)%nat by lia.
  reflexivity.
Qed.

Lemma frame_of_Ok (data : matrix) (idx : list date) (cols : list label)
    (df : DataFrame) :
  frame_of data idx cols = Ok df ->
  df = mkFrame idx cols data /\ length data = length idx.
Proof.
  unfold frame_of. intros H.
  destruct (length data =? length idx)%nat eqn:E; simpl in H; [|discriminate].
  destruct (forallb (fun r => (length r =? length cols)%nat) data);
    [|discriminate].
  injection H as <-. split; [reflexivity|]. apply Nat.eqb_eq, E.
Qed.

Lemma range_cons (a : Z) (j len : nat) :
  map (fun k => (a + Z.of_nat k)%Z) (seq j (S len)) =
  (a + Z.of_nat j)%Z :: map (fun k => (a + Z.of_nat k)%Z) (seq (S j) len).
Proof. reflexivity. Qed.

Section Loop.

Variable ext : collaborators.
Variables (beta : vec) (sigma : matrix) (px_close px_vol bk2mkt : DataFrame).
Variable n : nat.

Let step := trade_step ext beta sigma px_close px_vol bk2mkt 250 n.
Let dates := Py.slice_from 250 (index px_close).

(** The rows written by the days [250 + j], ..., [250 + j + len - 1]. *)
Lemma trade_loop_inv (len : nat) :
  forall (j : nat) (st st' : loop_state),
    (j + len <= length (port_full st))%nat ->
    trade_loop step (map (fun k => (250 + Z.of_nat k)%Z) (seq j len)) st = Ok st' ->
    exists outs stored,
      day_chain ext beta sigma px_close px_vol bk2mkt
                (250 + Z.of_nat j) (port_t1 st) outs /\
      Forall2 (fun o r => broadcast_row n o = Ok r) outs stored /\
      length stored = len /\
      port_full st' =
        firstn j (port_full st) ++ stored ++ skipn (j + len) (port_full st) /\
      (len <> 0%nat \/ framed px_close st -> framed px_close st').
Proof.
  induction len as [|len IH]; intros j st st' Hj H.
  - simpl in H. injection H as <-.
    exists [], []. split; [|split; [|split; [|split]]]; try constructor.
    + simpl. rewrite Nat.add_0_r, firstn_skipn. reflexivity.
    + destruct H as [Hc|Hf]; [exfalso; apply Hc; reflexivity|apply Hf].
    + destruct H as [Hc|Hf]; [exfalso; apply Hc; reflexivity|apply Hf].
  - rewrite range_cons in H.
    change (st1 <- step st (250 + Z.of_nat j)%Z ;;
            trade_loop step
              (map (fun k => (250 + Z.of_nat k)%Z) (seq (S j) len)) st1
            = Ok st') in H.
    destruct (step st (250 + Z.of_nat j)%Z) as [st1|] eqn:Hs; [|discriminate].
    unfold bind in H.
    unfold step, trade_step in Hs.
    destruct (optimize_port ext (port_t1 st) beta sigma px_close px_vol bk2mkt
                            (250 + Z.of_nat j)) as [o|] eqn:Ho; [|discriminate].
    cbn [bind] in Hs.
    destruct (broadcast_row n o) as [r|] eqn:Hb; [|discriminate].
    cbn [bind] in Hs.
    destruct (dot o beta) as [d|]; [|discriminate]. cbn [bind] in Hs.
    destruct (assert (Rltb d (1/100))); [|discriminate]. cbn [bind] in Hs.
    replace (Z.to_nat (250 + Z.of_nat j - 250)) with j in Hs by lia.
    destruct (frame_of (Py.set_nth j r (port_full st))
                       (Py.slice_from 250 (index px_close)) (columns px_close))
      as [pd|] eqn:Hf; [|discriminate].
    cbn [bind] in Hs. injection Hs as <-.
    apply frame_of_Ok in Hf. destruct Hf as [-> Hlen].
    apply IH in H; [|cbn [port_full]; rewrite set_nth_length; lia].
    destruct H as (outs & stored & Hc & Hst & Hl & Hfull & Hframe).
    cbn [port_full port_t1] in Hc, Hfull.
    exists (o :: outs), (r :: stored). split; [|split; [|split; [|split]]].
    + apply chain_day; [exact Ho|].
      replace (250 + Z.of_nat j + 1)%Z with (250 + Z.of_nat (S j))%Z by lia.
      exact Hc.
    + constructor; assumption.
    + simpl. lia.
    + rewrite Hfull. apply set_nth_window. exact Hj.
    + intros _. apply Hframe. right. split; [reflexivity|exact Hlen].
Qed.

End Loop.

Lemma index_first_repeat {A : Type} (x w : A) (k : nat) :
  Py.index 0 (repeat x k) = Ok w -> w = x /\ (0 < k)%nat.
Proof.
  destruct k as [|k]; [discriminate|].
  unfold Py.index. intros H. simpl in H. injection H as <-.
  split; [reflexivity|lia].
Qed.

(** C7: when the run over a price matrix of more than 250 rows completes, the
    optimiser has been called once per day from day 250 on, the first time
    from the zero position and then from its own previous output, and the
    returned history has one row per output: as many rows as the matrix has
    after its first 250, labelled with the dates from index 250 on. *)
Theorem trade_model_history (ext : collaborators)
    (px_close px_vol bk2mkt hist : DataFrame) :
  (250 < length (rows px_close))%nat ->
  trade_model ext px_close px_vol bk2mkt = Ok hist ->
  exists beta sigma outs,
    beta_model ext px_close = Ok beta /\
    sigma_model ext px_close = Ok sigma /\
    day_chain ext beta sigma px_close px_vol bk2mkt 250
              (zeros (length (columns px_close))) outs /\
    Forall2 (fun o r => broadcast_row (length (columns px_close)) o = Ok r)
            outs (rows hist) /\
    length (rows hist) = (length (rows px_close) - 250)%nat /\
    index hist = Py.slice_from 250 (index px_close) /\
    length (index hist) = length (rows hist).
Proof.
  intros Hm H. unfold trade_model in H.
  destruct (beta_model ext px_close) as [beta|] eqn:Hbeta; [|discriminate].
  cbn [bind] in H.
  destruct (sigma_model ext px_close) as [sigma|] eqn:Hsigma; [|discriminate].
  cbn [bind] in H. unfold shape in H.
  rewrite Nat2Z.id in H.
  set (n := length (columns px_close)) in *.
  set (m := length (rows px_close)) in *.
  destruct (Z.of_nat m - 250 <? 0)%Z; [discriminate|].
  cbn [bind] in H.
  replace (Z.to_nat (Z.of_nat m - 250)) with (m - 250)%nat in H by lia.
  destruct (Py.index 0 (repeat (zeros n) (m - 250))) as [w0|] eqn:Hw0;
    [|discriminate].
  cbn [bind] in H.
  apply index_first_repeat in Hw0. destruct Hw0 as [-> _].
  destruct (trade_loop _ _ _) as [st|] eqn:Hloop in H; [|discriminate].
  cbn [bind] in H.
  unfold Py.range in Hloop.
  replace (Z.to_nat (Z.of_nat m - 250)) with (m - 250)%nat in Hloop by lia.
  apply trade_loop_inv in Hloop;
    [|cbn [port_full]; rewrite repeat_length; lia].
  destruct Hloop as (outs & stored & Hc & Hst & Hl & Hfull & Hframe).
  cbn [port_full port_t1] in Hc, Hfull.
  destruct Hframe as [Hpf Hlen]; [left; lia|].
  rewrite Hpf in H. injection H as <-. cbn [rows index].
  rewrite skipn_all2 in Hfull by (rewrite repeat_length; lia).
  simpl in Hfull. rewrite app_nil_r in Hfull.
  exists beta, sigma, outs.
  rewrite Hfull in *.
  repeat split; try assumption. symmetry. exact Hlen.
Qed.

(** ** A worked run of one day *)

Lemma mom_ret_first_day (idx : list date) (cols : list label) (a b : vec) :
  mom_ret (iloc_rows (250 - 250) 250 (mkFrame idx cols (a :: repeat b 250))) =
  Ok (map (fun p => fst p / snd p - 1) (combine a b)).
Proof. vm_compute. reflexivity. Qed.

Lemma vol_avg_first_day (idx : list date) (cols : list label) (z : vec) :
  vol_avg (iloc_rows (250 - 5) 250 (mkFrame idx cols (repeat z 251))) =
  mean_axis0 (mkFrame (Py.slice (-5) (-1) (Py.slice (250 - 5) 250 idx)) cols
                      [z; z; z; z]).
Proof. vm_compute. reflexivity. Qed.

Lemma iloc_last_day (idx : list date) (cols : list label) (z : vec) :
  iloc 250 (mkFrame idx cols (repeat z 251)) = Ok z.
Proof. vm_compute. reflexivity. Qed.

Lemma alpha_model_worked :
  alpha_model 250 px_worked vol_worked b2m_worked =
  Ok (aggregate [-1; 0; 1] [-1; 0; 1] [-1; 0; 1]).
Proof.
  unfold alpha_model, alpha_mom_str, alpha_vol_wk, alpha_b2m.
  unfold px_worked, vol_worked, b2m_worked.
  rewrite mom_ret_first_day, vol_avg_first_day, iloc_last_day.
  cbn [bind].
  replace (map (fun p => fst p / snd p - 1) (combine [1; 2; 3] [1; 1; 1]))
    with [1 - 1; 1; 1 + 1] by (simpl; vec_eq).
  rewrite windsorize_three by lra. cbn [bind].
  replace (mean_axis0 _) with (Fin [2 - 1; 2; 2 + 1]).
  2:{ unfold mean_axis0, column. simpl. f_equal. vec_eq. }
  rewrite windsorize_three by lra. cbn [bind].
  replace (vneg [3; 2; 1]) with [-2 - 1; -2; -2 + 1]
    by (simpl; vec_eq).
  rewrite windsorize_three by lra. reflexivity.
Qed.

Lemma beta_model_worked (ev : list R) (x : vec) :
  beta_model (worked ev x) px_worked = Ok [1; 1; 1].
Proof. vm_compute. reflexivity. Qed.

Lemma sigma_model_worked_run (ev : list R) (x : vec) :
  Forall (fun e => 0 < e) ev ->
  sigma_model (worked ev x) px_worked = Ok (identity 3).
Proof.
  intros H. apply forallb_Rltb in H.
  unfold sigma_model, worked, px_worked.
  cbn [calc_return ledoit_wolf eigvals rows repeat bind].
  unfold assert. rewrite H. reflexivity.
Qed.

Lemma optimize_port_worked (ev : list R) (x w beta : vec) (sigma : matrix) :
  length beta = 3%nat ->
  optimize_port (worked ev x) w beta sigma px_worked vol_worked b2m_worked 250
  = Ok x.
Proof.
  intros Hb. unfold optimize_port.
  rewrite alpha_model_worked. cbn [bind].
  rewrite max_size_eq, Hb. reflexivity.
Qed.

(** The run over the three worked matrices, with a solver that answers
    [a; b; c]: the single day 250 is processed, and the run completes when
    [a + b + c], the dollar beta of the answer, is below the tolerance. *)
Lemma trade_model_worked (ev : list R) (a b c : R) :
  Forall (fun e => 0 < e) ev ->
  a + b + c < 1/100 ->
  trade_model (worked ev [a; b; c]) px_worked vol_worked b2m_worked =
  Ok (mkFrame [250%nat] [0; 1; 2]%nat [[a; b; c]]).
Proof.
  intros Hev Hd. unfold trade_model.
  rewrite beta_model_worked, sigma_model_worked_run by assumption.
  cbn [bind].
  unfold shape.
  replace (length (rows px_worked)) with 251%nat by reflexivity.
  replace (length (columns px_worked)) with 3%nat by reflexivity.
  cbv beta iota zeta.
  replace (Z.of_nat 251 - 250 <? 0)%Z with false by reflexivity.
  replace (Z.to_nat (Z.of_nat 251 - 250)) with 1%nat by reflexivity.
  replace (Z.to_nat (Z.of_nat 3)) with 3%nat by reflexivity.
  replace (Py.range 250 (Z.of_nat 251)) with [250%Z] by reflexivity.
  cbn [bind].
  replace (Py.index 0 (repeat (zeros 3) 1)) with (Ok (zeros 3)) by reflexivity.
  cbn [bind trade_loop]. unfold trade_step. cbn [port_t1 port_full].
  rewrite optimize_port_worked by reflexivity.
  cbn [bind]. 
  replace (broadcast_row 3 [a; b; c]) with (Ok [a; b; c]) by reflexivity.
  cbn [bind].
  replace (Z.to_nat (250 - 250)) with 0%nat by reflexivity.
  unfold dot. cbn [length Nat.eqb combine map fst snd vsum fold_right].
  cbn [bind].
  match goal with
  | |- context [Rltb ?d (1/100)] =>
      replace (Rltb d (1/100)) with true by (symmetry; apply Rltb_true; lra)
  end.
  cbn [assert bind].
  replace (Py.slice_from 250 (index px_worked)) with [250%nat] by reflexivity.
  reflexivity.
Qed.

Lemma trade_model_history_witness :
  exists beta sigma outs,
    beta_model (worked [1] [0; 0; 0]) px_worked = Ok beta /\
    sigma_model (worked [1] [0; 0; 0]) px_worked = Ok sigma /\
    day_chain (worked [1] [0; 0; 0]) beta sigma px_worked vol_worked b2m_worked
              250 (zeros (length (columns px_worked))) outs /\
    Forall2 (fun o r => broadcast_row (length (columns px_worked)) o = Ok r)
            outs [[0; 0; 0]] /\
    length [[0; 0; 0]] = (length (rows px_worked) - 250)%nat /\
    [250%nat] = Py.slice_from 250 (index px_worked) /\
    length [250%nat] = length [[0; 0; 0]].
Proof.
  apply (trade_model_history (worked [1] [0; 0; 0])
           px_worked vol_worked b2m_worked
           (mkFrame [250%nat] [0; 1; 2]%nat [[0; 0; 0]])).
  - vm_compute. lia.
  - apply trade_model_worked; [repeat constructor; lra|lra].
Defined.

(** What the check of the loop does establish: the dollar beta of an
    accepted output is below the tolerance. *)
Lemma trade_step_dollar_beta (ext : collaborators) (beta : vec) (sigma : matrix)
    (px_close px_vol bk2mkt : DataFrame) (ti : Z) (n : nat)
    (st st' : loop_state) (t : Z) :
  trade_step ext beta sigma px_close px_vol bk2mkt ti n st t = Ok st' ->
  exists d, dot (port_t1 st') beta = Ok d /\ d < 1/100.
Proof.
  unfold trade_step. intros H.
  destruct (optimize_port _ _ _ _ _ _ _ _) as [o|]; [|discriminate].
  cbn [bind] in H.
  destruct (broadcast_row n o) as [r|]; [|discriminate]. cbn [bind] in H.
  destruct (dot o beta) as [d|] eqn:Hd; [|discriminate]. cbn [bind] in H.
  destruct (Rltb d (1/100)) eqn:Hlt; [|discriminate]. cbn [assert bind] in H.
  destruct (frame_of _ _ _) as [pd|]; [|discriminate]. cbn [bind] in H.
  injection H as <-. cbn [port_t1].
  exists d. split; [exact Hd|]. apply Rltb_true, Hlt.
Qed.

(** C1: with unit betas and a solver that answers [-1; 0; 0] the day 250 is
    accepted and the run completes, although the dollar beta of the
    position is -1, a whole unit away from zero. *)
Theorem trade_model_accepts_negative_beta :
  trade_model (worked [1] [-1; 0; 0]) px_worked vol_worked b2m_worked =
    Ok (mkFrame [250%nat] [0; 1; 2]%nat [[-1; 0; 0]]) /\
  beta_model (worked [1] [-1; 0; 0]) px_worked = Ok [1; 1; 1] /\
  dot [-1; 0; 0] [1; 1; 1] = Ok (-1) /\
  ~ Rabs (-1) < 1/100.
Proof.
  split; [|split; [|split]].
  - apply trade_model_worked; [repeat constructor; lra|lra].
  - apply beta_model_worked.
  - unfold dot. simpl. f_equal. lra.
  - real_cases.
Qed.

(** * Further properties of the pipeline *)

(** ** Constraint builder: caps and box *)

Lemma vsum_abs_zeros (n : nat) : vsum (map Rabs (zeros n)) = 0.
Proof.
  induction n as [|n IH]; [reflexivity|].
  unfold zeros in *. simpl. rewrite IH, Rabs_R0. lra.
Qed.

Lemma max_size_zeros (n : nat) :
  max_size (zeros n) = (repeat (-150000) n, repeat 150000 n).
Proof.
  rewrite max_size_eq. unfold size_caps.
  rewrite vsum_abs_zeros.
  replace (Reqb 0 0) with true by (symmetry; apply Reqb_true; reflexivity).
  cbn [fst snd]. unfold zeros. rewrite !map_repeat.
  f_equal; f_equal; real_cases.
Qed.

(** X1: from a flat book of [n] assets every position may move by the full
    trade cap: the bounds are [-150000] and [150000] for each asset. *)
Theorem max_size_cold_start (n : nat) :
  max_size (zeros n) = (repeat (-150000) n, repeat 150000 n).
Proof. exact (max_size_zeros n). Qed.

(** X2: the trade cap never exceeds 150000 and the position cap never exceeds
    ten times the trade cap; neither is negative. *)
Theorem size_caps_bounded (w : vec) :
  0 <= fst (size_caps w) <= 150000 /\
  0 <= snd (size_caps w) <= 10 * fst (size_caps w).
Proof.
  destruct (size_caps_nonneg w) as [Ht Hp].
  split; (split; [assumption|]).
  - unfold size_caps. destruct (Reqb (vsum (map Rabs w)) 0); cbn [fst]; [lra|].
    apply Rmin_l.
  - unfold size_caps. destruct (Reqb (vsum (map Rabs w)) 0); cbn [fst snd]; [lra|].
    apply Rmin_l.
Qed.

(** X3: a position inside the bounds differs from the prior one by at most
    the trade cap and lies within the position cap, entry by entry. *)
Theorem max_size_box (w x : vec) :
  Forall2 Rle (fst (max_size w)) x ->
  Forall2 Rle x (snd (max_size w)) ->
  Forall2 (fun wi xi => Rabs (xi - wi) <= fst (size_caps w) /\
                        Rabs xi <= snd (size_caps w)) w x.
Proof.
  rewrite max_size_eq. cbn [fst snd].
  set (theta := fst (size_caps w)). set (pi := snd (size_caps w)).
  clearbody theta pi. revert x.
  induction w as [|wi w IH]; intros x Hg Hd; simpl in Hg, Hd.
  - inversion Hg; subst. constructor.
  - inversion Hg as [|g xi gs xs Hgi Hgs]; subst.
    inversion Hd as [|? d ? ds Hdi Hds]; subst.
    constructor; [|apply IH; assumption].
    revert Hgi Hdi. real_cases.
Qed.

Lemma max_size_box_witness :
  Forall2 (fun wi xi => Rabs (xi - wi) <= fst (size_caps (zeros 2)) /\
                        Rabs xi <= snd (size_caps (zeros 2)))
          (zeros 2) [1; -1].
Proof.
  apply (max_size_box (zeros 2) [1; -1]).
  - rewrite max_size_zeros. simpl.
    repeat (apply Forall2_cons; [lra|]). apply Forall2_nil.
  - rewrite max_size_zeros. simpl.
    repeat (apply Forall2_cons; [lra|]). apply Forall2_nil.
Defined.

(** X4: keeping the prior position is allowed by the bounds exactly when each
    of its entries lies within the position cap. *)
Theorem max_size_hold_iff (w : vec) :
  (Forall2 Rle (fst (max_size w)) w /\ Forall2 Rle w (snd (max_size w))) <->
  Forall (fun x => Rabs x <= snd (size_caps w)) w.
Proof.
  rewrite max_size_eq. cbn [fst snd].
  destruct (size_caps_nonneg w) as [Ht Hp].
  set (theta := fst (size_caps w)) in *. set (pi := snd (size_caps w)) in *.
  clearbody theta pi.
  induction w as [|x w IH]; simpl.
  - split; [constructor|]. intros _. split; constructor.
  - split.
    + intros [Hg Hd]. inversion Hg; subst. inversion Hd; subst.
      constructor; [|apply IH; split; assumption].
      match goal with
      | H1 : Rmax _ _ <= x, H2 : x <= Rmin _ _ |- _ => revert H1 H2
      end. real_cases.
    + intros H. inversion H as [|? ? Hx Hw]; subst.
      apply IH in Hw. destruct Hw as [Hg Hd].
      split; (constructor; [|assumption]); revert Hx; real_cases.
Qed.

(** ** Signal normaliser: shape and range of the result *)

Lemma clip3_bound (x : R) : Rabs (clip3 x) <= 3.
Proof.
  unfold clip3. destruct (Rltb 3 (Rabs x)) eqn:E.
  - apply Rltb_true in E. unfold Rabs in *.
    destruct (Rcase_abs x) as [Hx|Hx].
    + replace (3 * x / - x) with (-3) by (field; lra).
      destruct (Rcase_abs (-3)); lra.
    + replace (3 * x / x) with 3 by (field; lra).
      destruct (Rcase_abs 3); lra.
  - apply Rltb_false in E. exact E.
Qed.

Lemma clip3_inside (x : R) : Rabs x <= 3 -> clip3 x = x.
Proof.
  intros H. unfold clip3.
  replace (Rltb 3 (Rabs x)) with false by (symmetry; apply Rltb_false, H).
  reflexivity.
Qed.

(** The loop seen from its last iteration. *)
Lemma windsorize_loop_last (n : nat) (raw : cross) :
  windsorize_loop (S n) raw = clip (standardize (windsorize_loop n raw)).
Proof.
  revert raw. induction n as [|n IH]; intros raw; [reflexivity|].
  rewrite windsorize_loop_S, IH. reflexivity.
Qed.

Lemma windsorize_Ok_loop (raw : cross) (n : nat) (out : vec) :
  windsorize raw n = Ok out -> windsorize_loop n raw = Fin out.
Proof.
  unfold windsorize.
  destruct (windsorize_loop n raw) as [v|]; [|discriminate].
  destruct (assert (lt_nan (option_map Rabs (mean v)) (1/100)));
    [|discriminate]. cbn [bind].
  destruct (assert (lt_nan (option_map (fun s => Rabs (s - 1)) (std v)) (1/100)));
    [|discriminate]. cbn [bind].
  destruct (assert (Rltb (max_abs v - 3) (1/100))); [|discriminate].
  cbn [bind]. intros H. injection H as <-. reflexivity.
Qed.

Lemma standardize_length (v u : vec) :
  standardize (Fin v) = Fin u -> length u = length v.
Proof.
  unfold standardize.
  destruct (mean v); [|discriminate]. destruct (std v); [|discriminate].
  destruct (Reqb r0 0); [discriminate|].
  intros H. injection H as <-. apply length_map.
Qed.

Lemma windsorize_loop_length (n : nat) (v out : vec) :
  windsorize_loop n (Fin v) = Fin out -> length out = length v.
Proof.
  revert out. induction n as [|n IH]; intros out H.
  - simpl in H. injection H as <-. reflexivity.
  - rewrite windsorize_loop_last in H.
    destruct (windsorize_loop n (Fin v)) as [w|]; [|discriminate].
    destruct (standardize (Fin w)) as [u|] eqn:Hs; [|discriminate].
    simpl in H. injection H as <-.
    rewrite length_map, (standardize_length w u Hs). apply IH. reflexivity.
Qed.

Lemma windsorize_Ok_within_three (raw : cross) (n : nat) (out : vec) :
  windsorize raw (S n) = Ok out -> Forall (fun x => Rabs x <= 3) out.
Proof.
  intros H. apply windsorize_Ok_loop in H.
  rewrite windsorize_loop_last in H.
  destruct (standardize (windsorize_loop n raw)) as [u|]; [|discriminate].
  simpl in H. injection H as <-.
  apply Forall_forall. intros x Hx.
  apply in_map_iff in Hx. destruct Hx as (y & <- & _). apply clip3_bound.
Qed.

(** X5: after at least one iteration every entry of a returned vector lies
    between -3 and 3. *)
Theorem windsorize_within_three (raw : cross) (n : nat) (out : vec) :
  windsorize raw (S n) = Ok out -> Forall (fun x => Rabs x <= 3) out.
Proof. exact (windsorize_Ok_within_three raw n out). Qed.

Lemma windsorize_within_three_witness :
  Forall (fun x => Rabs x <= 3) [-1; 0; 1].
Proof.
  apply (windsorize_within_three (Fin [-1; 0; 1]) 9 [-1; 0; 1]).
  apply windsorize_unit.
Defined.

(** X6: the normaliser returns one value per input value. *)
Theorem windsorize_length (v : vec) (n : nat) (out : vec) :
  windsorize (Fin v) n = Ok out -> length out = length v.
Proof.
  intros H. apply windsorize_Ok_loop in H.
  apply (windsorize_loop_length n v out H).
Qed.

Lemma windsorize_length_witness : length [-1; 0; 1] = length [2; 3; 4].
Proof.
  apply (windsorize_length [2; 3; 4] 10 [-1; 0; 1]).
  replace [2; 3; 4] with [3 - 1; 3; 3 + 1] by vec_eq.
  apply windsorize_three. lra.
Defined.

(** ** Signal normaliser: what a standardisation achieves *)

Lemma vsum_standardized (m s : R) (v : vec) :
  vsum (map (fun x => (x - m) / s) v) = (vsum v - INR (length v) * m) / s.
Proof.
  induction v as [|x v IH].
  - simpl. lra.
  - change (vsum (map (fun x => (x - m) / s) (x :: v)))
      with ((x - m) / s + vsum (map (fun x => (x - m) / s) v)).
    change (vsum (x :: v)) with (x + vsum v).
    change (length (x :: v)) with (S (length v)).
    rewrite IH, S_INR. unfold Rdiv. ring.
Qed.

Lemma vsum_squares_standardized (m s : R) (v : vec) :
  s <> 0 ->
  vsum (map (fun y => (y - 0) * (y - 0)) (map (fun x => (x - m) / s) v)) =
  vsum (map (fun x => (x - m) * (x - m)) v) / (s * s).
Proof.
  intros Hs. induction v as [|x v IH].
  - simpl. lra.
  - simpl. simpl in IH. rewrite IH. field. exact Hs.
Qed.

Lemma vsum_squares_nonneg (m : R) (v : vec) :
  0 <= vsum (map (fun x => (x - m) * (x - m)) v).
Proof.
  induction v as [|x v IH]; simpl; [lra|].
  pose proof (Rle_0_sqr (x - m)) as Hq. unfold Rsqr in Hq. lra.
Qed.

Lemma mean_Some (v : vec) (m : R) :
  mean v = Some m -> v <> [] /\ m = vsum v / INR (length v).
Proof.
  destruct v as [|x v]; [discriminate|].
  intros H. split; [discriminate|].
  assert (E : Some (vsum (x :: v) / INR (length (x :: v))) = Some m) by exact H.
  congruence.
Qed.

Lemma std_Some (v : vec) (s : R) :
  std v = Some s ->
  exists m, mean v = Some m /\ (1 < length v)%nat /\
    s = sqrt (vsum (map (fun x => (x - m) * (x - m)) v) / INR (length v - 1)).
Proof.
  unfold std. destruct (mean v) as [m|]; [|discriminate].
  destruct (Nat.leb_spec (length v) 1) as [Hle|Hlt]; [discriminate|].
  intros H. exists m. repeat split; [assumption|congruence].
Qed.

Lemma std_from_mean (v : vec) (m : R) :
  mean v = Some m -> (1 < length v)%nat ->
  std v = Some (sqrt (vsum (map (fun x => (x - m) * (x - m)) v)
                      / INR (length v - 1))).
Proof.
  intros Hm Hl. unfold std. rewrite Hm.
  destruct (Nat.leb_spec (length v) 1); [lia|reflexivity].
Qed.

Lemma standardize_mean_std (v u : vec) :
  standardize (Fin v) = Fin u -> mean u = Some 0 /\ std u = Some 1.
Proof.
  unfold standardize.
  destruct (mean v) as [m|] eqn:Hm; [|discriminate].
  destruct (std v) as [s|] eqn:Hs; [|discriminate].
  destruct (Reqb s 0) eqn:Hz; [discriminate|].
  apply Reqb_false in Hz. intros H. injection H as <-.
  apply std_Some in Hs. destruct Hs as (m' & Hm' & Hl & Hs).
  rewrite Hm in Hm'. injection Hm' as <-.
  apply mean_Some in Hm. destruct Hm as [Hne Hm].
  assert (Hn : INR (length v) <> 0) by (apply not_0_INR; lia).
  assert (Hmean : mean (map (fun x => (x - m) / s) v) = Some 0).
  { destruct v as [|x v]; [contradiction|].
    change (mean (map (fun x0 => (x0 - m) / s) (x :: v)))
      with (Some (vsum (map (fun x0 => (x0 - m) / s) (x :: v))
                  / INR (length (map (fun x0 => (x0 - m) / s) (x :: v))))).
    f_equal. rewrite vsum_standardized, length_map, Hm. field.
    split; assumption. }
  split; [exact Hmean|].
  rewrite (std_from_mean _ 0 Hmean) by (rewrite length_map; exact Hl).
  f_equal. rewrite vsum_squares_standardized by exact Hz.
  rewrite length_map.
  set (S2 := vsum (map (fun x => (x - m) * (x - m)) v)) in *.
  set (k := INR (length v - 1)) in *.
  assert (Hk : 0 < k).
  { unfold k. apply lt_0_INR. lia. }
  assert (HS : 0 <= S2) by apply vsum_squares_nonneg.
  assert (Hq : 0 <= S2 / k).
  { unfold Rdiv. apply Rmult_le_pos; [exact HS|].
    apply Rlt_le, Rinv_0_lt_compat, Hk. }
  assert (Hss : s * s = S2 / k) by (rewrite Hs; apply sqrt_sqrt, Hq).
  replace (S2 / (s * s) / k) with 1; [apply sqrt_1|].
  rewrite Hss. field. split; [lra|].
  intros E0. apply Hz. rewrite Hs, E0. unfold Rdiv. rewrite Rmult_0_l. apply sqrt_0.
Qed.

(** X7: a standardised cross-section has mean zero and deviation one. *)
Theorem standardize_centred (v u : vec) :
  standardize (Fin v) = Fin u -> mean u = Some 0 /\ std u = Some 1.
Proof. exact (standardize_mean_std v u). Qed.

Lemma standardize_centred_witness :
  mean [-1; 0; 1] = Some 0 /\ std [-1; 0; 1] = Some 1.
Proof.
  apply (standardize_centred [3 - 1; 3; 3 + 1] [-1; 0; 1]).
  apply standardize_three. lra.
Defined.

Lemma max_abs_fold_bound (b : R) (t : vec) :
  forall m, m <= b -> Forall (fun y => Rabs y <= b) t ->
  fold_left (fun m y => if Rltb m (Rabs y) then Rabs y else m) t m <= b.
Proof.
  induction t as [|y t IH]; intros m Hm Ht; simpl; [exact Hm|].
  inversion Ht; subst. apply IH; [|assumption].
  destruct (Rltb m (Rabs y)); assumption.
Qed.

Lemma max_abs_bound (b : R) (v : vec) :
  0 <= b -> Forall (fun y => Rabs y <= b) v -> max_abs v <= b.
Proof.
  intros Hb Hv. destruct v as [|x t]; [exact Hb|].
  inversion Hv; subst. unfold max_abs. apply max_abs_fold_bound; assumption.
Qed.

Lemma clip_inside (u : vec) :
  Forall (fun x => Rabs x <= 3) u -> clip (Fin u) = Fin u.
Proof.
  intros H. unfold clip. f_equal.
  induction H as [|x u Hx Hu IH]; [reflexivity|].
  simpl. rewrite clip3_inside by exact Hx. f_equal. exact IH.
Qed.

(** X8: when the last standardisation leaves every entry within 3 of zero,
    nothing is clipped, the three checks pass and the normaliser returns the
    standardised values. *)
Theorem windsorize_returns_unclipped (raw : cross) (n : nat) (w u : vec) :
  windsorize_loop n raw = Fin w ->
  standardize (Fin w) = Fin u ->
  Forall (fun x => Rabs x <= 3) u ->
  windsorize raw (S n) = Ok u.
Proof.
  intros Hw Hu Hb. unfold windsorize.
  rewrite windsorize_loop_last, Hw, Hu, clip_inside by exact Hb.
  apply windsorize_checks_pass.
  destruct (standardize_mean_std w u Hu) as [Hm Hs].
  exists 0, 1. repeat split; try assumption.
  - rewrite Rabs_R0. lra.
  - replace (1 - 1) with 0 by lra. rewrite Rabs_R0. lra.
  - pose proof (max_abs_bound 3 u ltac:(lra) Hb). lra.
Qed.

Lemma windsorize_returns_unclipped_witness :
  windsorize (Fin [3 - 1; 3; 3 + 1]) 1 = Ok [-1; 0; 1].
Proof.
  apply (windsorize_returns_unclipped (Fin [3 - 1; 3; 3 + 1]) 0
           [3 - 1; 3; 3 + 1] [-1; 0; 1]).
  - reflexivity.
  - apply standardize_three. lra.
  - repeat (apply Forall_cons; [unfold Rabs; destruct (Rcase_abs _); lra|]).
    apply Forall_nil.
Defined.

(** ** Signal normaliser: symmetry and invariance *)

Lemma vsum_neg (v : vec) : vsum (vneg v) = - vsum v.
Proof.
  induction v as [|x v IH]; [simpl; lra|].
  change (vsum (vneg (x :: v))) with (- x + vsum (vneg v)).
  change (vsum (x :: v)) with (x + vsum v). rewrite IH. lra.
Qed.

Lemma mean_neg (v : vec) : mean (vneg v) = option_map Ropp (mean v).
Proof.
  destruct v as [|x v]; [reflexivity|].
  change (mean (vneg (x :: v)))
    with (Some (vsum (vneg (x :: v)) / INR (length (vneg (x :: v))))).
  change (mean (x :: v)) with (Some (vsum (x :: v) / INR (length (x :: v)))).
  cbn [option_map]. f_equal. rewrite vsum_neg. unfold vneg.
  rewrite length_map. unfold Rdiv. ring.
Qed.

Lemma std_neg (v : vec) : std (vneg v) = std v.
Proof.
  unfold std. rewrite mean_neg.
  destruct (mean v) as [m|]; [|reflexivity]. cbn [option_map].
  unfold vneg. rewrite length_map.
  destruct (length v <=? 1)%nat; [reflexivity|].
  rewrite map_map. do 2 f_equal. f_equal. f_equal.
  apply map_ext. intros x. ring.
Qed.

Lemma standardize_neg (c : cross) : standardize (cneg c) = cneg (standardize c).
Proof.
  destruct c as [v|]; [|reflexivity]. simpl.
  rewrite mean_neg, std_neg.
  destruct (mean v) as [m|]; [|reflexivity]. cbn [option_map].
  destruct (std v) as [s|]; [|reflexivity].
  destruct (Reqb s 0); [reflexivity|]. simpl. f_equal.
  unfold vneg. rewrite !map_map. apply map_ext. intros x. unfold Rdiv. ring.
Qed.

Lemma clip3_neg (x : R) : clip3 (- x) = - clip3 x.
Proof.
  unfold clip3. rewrite Rabs_Ropp.
  destruct (Rltb 3 (Rabs x)); [|reflexivity]. unfold Rdiv. ring.
Qed.

Lemma clip_neg (c : cross) : clip (cneg c) = cneg (clip c).
Proof.
  destruct c as [v|]; [|reflexivity]. simpl. f_equal.
  unfold vneg. rewrite !map_map. apply map_ext, clip3_neg.
Qed.

Lemma windsorize_loop_neg (n : nat) (c : cross) :
  windsorize_loop n (cneg c) = cneg (windsorize_loop n c).
Proof.
  revert c. induction n as [|n IH]; intros c; [reflexivity|].
  rewrite !windsorize_loop_S, standardize_neg, clip_neg. apply IH.
Qed.

Lemma max_abs_neg (v : vec) : max_abs (vneg v) = max_abs v.
Proof.
  destruct v as [|x t]; [reflexivity|].
  unfold max_abs, vneg. cbn [map]. rewrite Rabs_Ropp.
  generalize (Rabs x). induction t as [|y t IH]; intros m; [reflexivity|].
  cbn [map fold_left]. rewrite Rabs_Ropp. apply IH.
Qed.

Lemma windsorize_vneg (v : vec) (n : nat) :
  windsorize (Fin (vneg v)) n =
  (out <- windsorize (Fin v) n ;; Ok (vneg out)).
Proof.
  unfold windsorize.
  change (Fin (vneg v)) with (cneg (Fin v)).
  rewrite windsorize_loop_neg.
  destruct (windsorize_loop n (Fin v)) as [w|]; [|reflexivity].
  cbn [cneg]. rewrite mean_neg, std_neg, max_abs_neg.
  destruct (mean w) as [m|]; [|reflexivity]. cbn [option_map lt_nan].
  rewrite Rabs_Ropp.
  destruct (assert (Rltb (Rabs m) (1/100))); [|reflexivity]. cbn [bind].
  destruct (assert (lt_nan (option_map (fun s => Rabs (s - 1)) (std w)) (1/100)));
    [|reflexivity]. cbn [bind].
  destruct (assert (Rltb (max_abs w - 3) (1/100))); reflexivity.
Qed.

(** X9: normalising the negated values gives the negated normalisation, with
    the same failures. *)
Theorem windsorize_neg (v : vec) (n : nat) :
  windsorize (Fin (vneg v)) n =
  (out <- windsorize (Fin v) n ;; Ok (vneg out)).
Proof. exact (windsorize_vneg v n). Qed.

(** X10: the value signal is the negation of the normalised book-to-market
    ratios. *)
Theorem alpha_b2m_negates (data_period : vec) :
  alpha_b2m data_period true =
  (out <- windsorize (Fin data_period) 10 ;; Ok (vneg out)).
Proof. unfold alpha_b2m. apply windsorize_vneg. Qed.

Lemma vsum_affine (a b : R) (v : vec) :
  vsum (map (fun x => a * x + b) v) = a * vsum v + INR (length v) * b.
Proof.
  induction v as [|x v IH].
  - simpl. lra.
  - change (vsum (map (fun x => a * x + b) (x :: v)))
      with (a * x + b + vsum (map (fun x => a * x + b) v)).
    change (vsum (x :: v)) with (x + vsum v).
    change (length (x :: v)) with (S (length v)).
    rewrite IH, S_INR. ring.
Qed.

Lemma mean_affine (a b : R) (v : vec) :
  mean (map (fun x => a * x + b) v) =
  option_map (fun m => a * m + b) (mean v).
Proof.
  destruct v as [|x v]; [reflexivity|].
  change (mean (map (fun x => a * x + b) (x :: v)))
    with (Some (vsum (map (fun x => a * x + b) (x :: v))
                / INR (length (map (fun x => a * x + b) (x :: v))))).
  change (mean (x :: v)) with (Some (vsum (x :: v) / INR (length (x :: v)))).
  cbn [option_map]. f_equal. rewrite vsum_affine, length_map. field.
  apply not_0_INR. discriminate.
Qed.

Lemma vsum_scaled (c : R) (v : vec) :
  vsum (map (fun x => c * x) v) = c * vsum v.
Proof.
  induction v as [|x v IH]; simpl; [lra|]. rewrite IH. ring.
Qed.

Lemma std_affine (a b : R) (v : vec) :
  0 < a ->
  std (map (fun x => a * x + b) v) = option_map (fun s => a * s) (std v).
Proof.
  intros Ha. unfold std. rewrite mean_affine, length_map.
  destruct (mean v) as [m|]; [|reflexivity]. cbn [option_map].
  destruct (Nat.leb_spec (length v) 1) as [Hle|Hlt]; [reflexivity|].
  cbn [option_map]. f_equal.
  rewrite map_map.
  rewrite (map_ext _ (fun x => (a * a) * ((x - m) * (x - m))))
    by (intros x; ring).
  rewrite <- (map_map (fun x => (x - m) * (x - m)) (fun y => a * a * y)).
  rewrite vsum_scaled.
  set (S2 := vsum (map (fun x => (x - m) * (x - m)) v)).
  assert (HS : 0 <= S2) by apply vsum_squares_nonneg.
  assert (Hk : 0 < INR (length v - 1)) by (apply lt_0_INR; lia).
  replace (a * a * S2 / INR (length v - 1))
    with ((a * a) * (S2 / INR (length v - 1))) by (unfold Rdiv; ring).
  rewrite sqrt_mult.
  - rewrite sqrt_square by lra. reflexivity.
  - nra.
  - unfold Rdiv. apply Rmult_le_pos; [exact HS|].
    apply Rlt_le, Rinv_0_lt_compat, Hk.
Qed.

Lemma standardize_affine (a b : R) (v : vec) :
  0 < a ->
  standardize (Fin (map (fun x => a * x + b) v)) = standardize (Fin v).
Proof.
  intros Ha. unfold standardize.
  rewrite mean_affine, std_affine by exact Ha.
  destruct (mean v) as [m|]; [|reflexivity]. cbn [option_map].
  destruct (std v) as [s|]; [|reflexivity]. cbn [option_map].
  destruct (Req_dec_T s 0) as [Hz|Hz].
  - subst s. rewrite Rmult_0_r.
    replace (Reqb 0 0) with true by (symmetry; apply Reqb_true; reflexivity).
    reflexivity.
  - replace (Reqb (a * s) 0) with false
      by (symmetry; apply Reqb_false; nra).
    replace (Reqb s 0) with false by (symmetry; apply Reqb_false, Hz).
    f_equal. rewrite map_map. apply map_ext. intros x. field. split; lra.
Qed.

(** X11: with at least one iteration the normalised signal does not depend
    on the unit or the origin of the raw values: scaling them by a positive
    factor and shifting them changes neither the result nor the failure. *)
Theorem windsorize_affine (a b : R) (v : vec) (n : nat) :
  0 < a ->
  windsorize (Fin (map (fun x => a * x + b) v)) (S n) = windsorize (Fin v) (S n).
Proof.
  intros Ha. unfold windsorize.
  rewrite !windsorize_loop_S, standardize_affine by exact Ha. reflexivity.
Qed.

Lemma windsorize_affine_witness :
  windsorize (Fin (map (fun x => 2 * x + 1) [1; 2; 3])) 10
  = windsorize (Fin [1; 2; 3]) 10.
Proof. apply (windsorize_affine 2 1 [1; 2; 3] 9). lra. Defined.

(** ** Alpha aggregator *)

Lemma aggregate_bound (a b c : vec) :
  Forall (fun x => Rabs x <= 3) a -> Forall (fun x => Rabs x <= 3) b ->
  Forall (fun x => Rabs x <= 3) c ->
  Forall (fun x => Rabs x <= 3) (aggregate a b c).
Proof.
  intros Ha Hb Hc. unfold aggregate. apply Forall_forall. intros x Hx.
  apply in_map_iff in Hx. destruct Hx as ([[p q] r] & <- & Hin).
  apply in_combine_l in Hin as Hpq. apply in_combine_r in Hin as Hr.
  apply in_combine_l in Hpq as Hp. apply in_combine_r in Hpq as Hq.
  rewrite Forall_forall in Ha, Hb, Hc.
  specialize (Ha p Hp). specialize (Hb q Hq). specialize (Hc r Hr).
  cbn [fst snd]. revert Ha Hb Hc. real_cases.
Qed.

(** X12: every entry of a combined alpha lies between -3 and 3. *)
Theorem alpha_model_within_three (t : Z) (px_close px_vol bk2mkt : DataFrame)
    (alpha : vec) :
  alpha_model t px_close px_vol bk2mkt = Ok alpha ->
  Forall (fun x => Rabs x <= 3) alpha.
Proof.
  unfold alpha_model, alpha_mom_str, alpha_vol_wk, alpha_b2m. intros H.
  destruct (mom_ret _) as [ret|]; [|discriminate]. cbn [bind] in H.
  destruct (windsorize (Fin ret) 10) as [a_mom|] eqn:Hm; [|discriminate].
  cbn [bind] in H.
  destruct (windsorize (vol_avg _) 10) as [a_vol|] eqn:Hv; [|discriminate].
  cbn [bind] in H.
  destruct (iloc t bk2mkt) as [row|]; [|discriminate]. cbn [bind] in H.
  destruct (windsorize (Fin (vneg row)) 10) as [a_b2m|] eqn:Hb; [|discriminate].
  cbn [bind] in H. injection H as <-.
  apply aggregate_bound; eapply windsorize_Ok_within_three; eassumption.
Qed.

Lemma alpha_model_within_three_witness :
  Forall (fun x => Rabs x <= 3) (aggregate [-1; 0; 1] [-1; 0; 1] [-1; 0; 1]).
Proof.
  apply (alpha_model_within_three 250 px_worked vol_worked b2m_worked).
  apply alpha_model_worked.
Defined.

Lemma index_firstn {A : Type} (i t : Z) (l1 l2 : list A) :
  (0 <= i < t)%Z -> (t <= Z.of_nat (length l1))%Z ->
  (t <= Z.of_nat (length l2))%Z ->
  firstn (Z.to_nat t) l1 = firstn (Z.to_nat t) l2 ->
  Py.index i l1 = Py.index i l2.
Proof.
  intros Hi H1 H2 E.
  destruct (index_inside i l1) as (x & Hx & ->); [lia|].
  destruct (index_inside i l2) as (y & Hy & ->); [lia|].
  assert (F : nth_error (firstn (Z.to_nat t) l1) (Z.to_nat i) = Some x).
  { rewrite nth_error_firstn.
    replace (Z.to_nat i <? Z.to_nat t)%nat with true
      by (symmetry; apply Nat.ltb_lt; lia).
    exact Hx. }
  rewrite E, nth_error_firstn in F.
  replace (Z.to_nat i <? Z.to_nat t)%nat with true in F
    by (symmetry; apply Nat.ltb_lt; lia).
  congruence.
Qed.

Lemma slice_firstn {A : Type} (a b t : Z) (l1 l2 : list A) :
  (0 <= a <= b)%Z -> (b <= t)%Z -> (t <= Z.of_nat (length l1))%Z ->
  (t <= Z.of_nat (length l2))%Z ->
  firstn (Z.to_nat t) l1 = firstn (Z.to_nat t) l2 ->
  Py.slice a b l1 = Py.slice a b l2.
Proof.
  intros Ha Hb H1 H2 E.
  rewrite !slice_inside by lia.
  rewrite !firstn_skipn_comm.
  replace (Z.to_nat a + Z.to_nat (b - a))%nat with (Z.to_nat b) by lia.
  assert (F : forall l : list A,
             firstn (Z.to_nat b) l = firstn (Z.to_nat b) (firstn (Z.to_nat t) l)).
  { intros l. rewrite firstn_firstn. f_equal. lia. }
  rewrite (F l1), (F l2), E. reflexivity.
Qed.

(** X13: the alpha of day [t] reads the closes and the volumes of the days
    before [t] only: two histories that agree on the first [t] days give the
    same alpha, whatever they hold from day [t] on. *)
Theorem alpha_model_no_lookahead (t : Z)
    (px1 px2 vol1 vol2 bk2mkt : DataFrame) :
  (250 <= t)%Z ->
  (t <= Z.of_nat (length (rows px1)))%Z ->
  (t <= Z.of_nat (length (rows px2)))%Z ->
  (t <= Z.of_nat (length (rows vol1)))%Z ->
  (t <= Z.of_nat (length (rows vol2)))%Z ->
  firstn (Z.to_nat t) (rows px1) = firstn (Z.to_nat t) (rows px2) ->
  firstn (Z.to_nat t) (rows vol1) = firstn (Z.to_nat t) (rows vol2) ->
  columns vol1 = columns vol2 ->
  alpha_model t px1 vol1 bk2mkt = alpha_model t px2 vol2 bk2mkt.
Proof.
  intros Ht Hp1 Hp2 Hv1 Hv2 Ep Ev Ec.
  unfold alpha_model, alpha_mom_str, alpha_vol_wk.
  rewrite !mom_ret_rows, !vol_avg_rows by lia.
  unfold iloc.
  rewrite (index_firstn (t - 250) t (rows px1) (rows px2)) by (assumption || lia).
  rewrite (index_firstn (t - 1) t (rows px1) (rows px2)) by (assumption || lia).
  unfold mean_axis0. cbn [rows columns].
  rewrite (slice_firstn (t - 5) (t - 1) t (rows vol1) (rows vol2))
    by (assumption || lia).
  rewrite Ec. reflexivity.
Qed.

Lemma alpha_model_no_lookahead_witness :
  alpha_model 250 px_worked vol_worked b2m_worked
  = alpha_model 250 px_worked_later vol_worked_later b2m_worked.
Proof.
  apply (alpha_model_no_lookahead 250 px_worked px_worked_later
           vol_worked vol_worked_later b2m_worked);
    try (vm_compute; intros E; discriminate E); reflexivity.
Defined.

(** ** Rebalancing loop: what a run establishes and how it fails *)

Lemma range_nat (m : nat) :
  Py.range 250 (Z.of_nat m) =
  map (fun k => (250 + Z.of_nat k)%Z) (seq 0 (m - 250)).
Proof. unfold Py.range. f_equal. f_equal. lia. Qed.

(** [trade_model] from the estimators to the end of its loop. *)
Lemma trade_model_unfold (ext : collaborators)
    (px_close px_vol bk2mkt : DataFrame) (beta : vec) (sigma : matrix) :
  beta_model ext px_close = Ok beta ->
  sigma_model ext px_close = Ok sigma ->
  (250 < length (rows px_close))%nat ->
  trade_model ext px_close px_vol bk2mkt =
  (st <- trade_loop
           (trade_step ext beta sigma px_close px_vol bk2mkt 250
                       (length (columns px_close)))
           (Py.range 250 (Z.of_nat (length (rows px_close))))
           (trade_start px_close) ;;
   match port_frame st with
   | Some pd => Ok pd
   | None => Raise UnboundLocalError
   end).
Proof.
  intros Hb Hs Hm. unfold trade_model, trade_start.
  rewrite Hb, Hs. cbn [bind]. unfold shape. rewrite Nat2Z.id.
  replace (Z.of_nat (length (rows px_close)) - 250 <? 0)%Z with false by lia.
  cbn [bind].
  replace (Z.to_nat (Z.of_nat (length (rows px_close)) - 250))
    with (length (rows px_close) - 250)%nat by lia.
  destruct (length (rows px_close) - 250)%nat as [|k] eqn:E; [lia|].
  reflexivity.
Qed.

(** X14: with 250 rows or fewer the run never returns a history: with fewer
    than 250 the array of positions cannot be allocated, with exactly 250 it
    has no first row to start from. *)
Theorem trade_model_short_history (ext : collaborators)
    (px_close px_vol bk2mkt : DataFrame) (beta : vec) (sigma : matrix) :
  beta_model ext px_close = Ok beta ->
  sigma_model ext px_close = Ok sigma ->
  (length (rows px_close) <= 250)%nat ->
  trade_model ext px_close px_vol bk2mkt =
  Raise (if (length (rows px_close) <? 250)%nat then ValueError else IndexError).
Proof.
  intros Hb Hs Hm. unfold trade_model.
  rewrite Hb, Hs. cbn [bind]. unfold shape.
  destruct (Nat.ltb_spec (length (rows px_close)) 250) as [Hlt|Hge].
  - replace (Z.of_nat (length (rows px_close)) - 250 <? 0)%Z with true by lia.
    reflexivity.
  - replace (length (rows px_close)) with 250%nat by lia. reflexivity.
Qed.

Lemma broadcast_row_length (n : nat) (o r : vec) :
  broadcast_row n o = Ok r -> length r = n.
Proof.
  unfold broadcast_row.
  destruct (Nat.eqb_spec (length o) n) as [E|E].
  - intros H. injection H as <-. exact E.
  - destruct o as [|x [|y o]]; try discriminate.
    intros H. injection H as <-. apply repeat_length.
Qed.

Section Run.

Variable ext : collaborators.
Variables (beta : vec) (sigma : matrix) (px_close px_vol bk2mkt : DataFrame).
Variable n : nat.

Let step := trade_step ext beta sigma px_close px_vol bk2mkt 250 n.

Lemma trade_loop_cons (t : Z) (days : list Z) (st : loop_state) :
  trade_loop step (t :: days) st =
  (st1 <- step st t ;; trade_loop step days st1).
Proof. reflexivity. Qed.

(** The loop stops at the first day that raises. *)
Lemma trade_loop_stops (done : list Z) :
  forall (t : Z) (rest : list Z) (st st1 : loop_state) (e : exn),
    trade_loop step done st = Ok st1 ->
    step st1 t = Raise e ->
    trade_loop step (done ++ t :: rest) st = Raise e.
Proof.
  induction done as [|d done IH]; intros t rest st st1 e Hd Ht.
  - simpl in Hd. injection Hd as ->.
    cbn [app]. rewrite trade_loop_cons, Ht. reflexivity.
  - rewrite trade_loop_cons in Hd. cbn [app]. rewrite trade_loop_cons.
    destruct (step st d) as [st'|]; [|discriminate].
    cbn [bind] in *. eapply IH; eassumption.
Qed.

(** Every output accepted by the loop has passed the check of its day. *)
Lemma trade_loop_checked (len : nat) :
  forall (j : nat) (st st' : loop_state) (outs : list vec),
    trade_loop step (map (fun k => (250 + Z.of_nat k)%Z) (seq j len)) st = Ok st' ->
    day_chain ext beta sigma px_close px_vol bk2mkt
              (250 + Z.of_nat j) (port_t1 st) outs ->
    length outs = len ->
    Forall (fun o => exists d, dot o beta = Ok d /\ d < 1/100) outs.
Proof.
  induction len as [|len IH]; intros j st st' outs H Hc Hl.
  - destruct outs; [constructor|discriminate].
  - destruct outs as [|o outs]; [discriminate|].
    rewrite range_cons, trade_loop_cons in H.
    destruct (step st (250 + Z.of_nat j)%Z) as [st1|] eqn:Hs; [|discriminate].
    cbn [bind] in H.
    inversion Hc as [|? ? ? ? Ho Hc']; subst.
    assert (Hp : port_t1 st1 = o).
    { unfold step, trade_step in Hs. rewrite Ho in Hs. cbn [bind] in Hs.
      destruct (broadcast_row n o); [|discriminate]. cbn [bind] in Hs.
      destruct (dot o beta); [|discriminate]. cbn [bind] in Hs.
      destruct (assert _); [|discriminate]. cbn [bind] in Hs.
      destruct (frame_of _ _ _); [|discriminate]. cbn [bind] in Hs.
      injection Hs as <-. reflexivity. }
    constructor.
    + apply trade_step_dollar_beta in Hs. rewrite Hp in Hs. exact Hs.
    + apply (IH (S j) st1 st'); [exact H| |simpl in Hl; lia].
      rewrite Hp.
      replace (250 + Z.of_nat (S j))%Z with (250 + Z.of_nat j + 1)%Z by lia.
      exact Hc'.
Qed.

End Run.

Lemma trade_model_Ok_estimates (ext : collaborators)
    (px_close px_vol bk2mkt hist : DataFrame) :
  trade_model ext px_close px_vol bk2mkt = Ok hist ->
  exists beta sigma,
    beta_model ext px_close = Ok beta /\ sigma_model ext px_close = Ok sigma /\
    (250 < length (rows px_close))%nat.
Proof.
  intros H. unfold trade_model in H.
  destruct (beta_model ext px_close) as [beta|]; [|discriminate].
  destruct (sigma_model ext px_close) as [sigma|]; [|discriminate].
  cbn [bind] in H. unfold shape in H.
  exists beta, sigma. repeat split.
  destruct (Z.of_nat (length (rows px_close)) - 250 <? 0)%Z eqn:E;
    [discriminate|].
  cbn [bind] in H.
  destruct (Nat.eq_dec (length (rows px_close)) 250) as [E2|E2]; [|lia].
  rewrite E2 in H. discriminate.
Qed.

(** X15: in a completed run the dollar beta of every day's output is below
    0.01, and the history has the columns of the price matrix with one entry
    per column in every row. *)
Theorem trade_model_daily_checks (ext : collaborators)
    (px_close px_vol bk2mkt hist : DataFrame) :
  trade_model ext px_close px_vol bk2mkt = Ok hist ->
  exists beta sigma outs,
    beta_model ext px_close = Ok beta /\
    sigma_model ext px_close = Ok sigma /\
    day_chain ext beta sigma px_close px_vol bk2mkt 250
              (zeros (length (columns px_close))) outs /\
    Forall2 (fun o r => broadcast_row (length (columns px_close)) o = Ok r)
            outs (rows hist) /\
    Forall (fun o => exists d, dot o beta = Ok d /\ d < 1/100) outs /\
    columns hist = columns px_close /\
    Forall (fun r => length r = length (columns px_close)) (rows hist).
Proof.
  intros H.
  destruct (trade_model_Ok_estimates _ _ _ _ _ H) as (beta & sigma & Hb & Hs & Hm).
  rewrite (trade_model_unfold ext px_close px_vol bk2mkt beta sigma Hb Hs Hm) in H.
  destruct (trade_loop _ _ _) as [st|] eqn:Hloop in H; [|discriminate].
  cbn [bind] in H. rewrite range_nat in Hloop.
  pose proof Hloop as Hloop'.
  apply trade_loop_inv in Hloop;
    [|unfold trade_start; cbn [port_full]; rewrite repeat_length; lia].
  destruct Hloop as (outs & stored & Hc & Hst & Hl & Hfull & Hframe).
  unfold trade_start in Hc, Hfull. cbn [port_full port_t1] in Hc, Hfull.
  destruct Hframe as [Hpf Hlen]; [left; lia|].
  rewrite Hpf in H. injection H as <-. cbn [rows columns].
  rewrite skipn_all2 in Hfull by (rewrite repeat_length; lia).
  simpl in Hfull. rewrite app_nil_r in Hfull. rewrite Hfull.
  exists beta, sigma, outs.
  split; [exact Hb|]. split; [exact Hs|]. split; [exact Hc|].
  split; [exact Hst|]. split; [|split; [reflexivity|]].
  - apply (trade_loop_checked ext beta sigma px_close px_vol bk2mkt
             (length (columns px_close)) (length (rows px_close) - 250) 0
             (trade_start px_close) st outs Hloop' Hc).
    apply Forall2_length in Hst. lia.
  - clear -Hst. induction Hst as [|o r outs stored Hor Hrest IH];
      constructor; [|exact IH].
    apply (broadcast_row_length _ o r Hor).
Qed.

Lemma trade_model_daily_checks_witness :
  exists beta sigma outs,
    beta_model (worked [1] [0; 0; 0]) px_worked = Ok beta /\
    sigma_model (worked [1] [0; 0; 0]) px_worked = Ok sigma /\
    day_chain (worked [1] [0; 0; 0]) beta sigma px_worked vol_worked b2m_worked
              250 (zeros (length (columns px_worked))) outs /\
    Forall2 (fun o r => broadcast_row (length (columns px_worked)) o = Ok r)
            outs [[0; 0; 0]] /\
    Forall (fun o => exists d, dot o beta = Ok d /\ d < 1/100) outs /\
    [0; 1; 2]%nat = columns px_worked /\
    Forall (fun r => length r = length (columns px_worked)) [[0; 0; 0]].
Proof.
  apply (trade_model_daily_checks (worked [1] [0; 0; 0])
           px_worked vol_worked b2m_worked
           (mkFrame [250%nat] [0; 1; 2]%nat [[0; 0; 0]])).
  apply trade_model_worked; [repeat constructor; lra|lra].
Defined.

(** X16: a day whose output has a dollar beta of 0.01 or more is refused:
    the step raises and no state is produced. *)
Theorem trade_step_rejects (ext : collaborators) (beta : vec) (sigma : matrix)
    (px_close px_vol bk2mkt : DataFrame) (ti : Z) (n : nat)
    (st : loop_state) (t : Z) (o r : vec) (d : R) :
  optimize_port ext (port_t1 st) beta sigma px_close px_vol bk2mkt t = Ok o ->
  broadcast_row n o = Ok r ->
  dot o beta = Ok d ->
  1/100 <= d ->
  trade_step ext beta sigma px_close px_vol bk2mkt ti n st t
  = Raise AssertionError.
Proof.
  intros Ho Hr Hd Hge. unfold trade_step.
  rewrite Ho. cbn [bind]. rewrite Hr. cbn [bind]. rewrite Hd. cbn [bind].
  replace (Rltb d (1/100)) with false by (symmetry; apply Rltb_false, Hge).
  reflexivity.
Qed.

Lemma trade_step_rejects_witness :
  trade_step (worked [1] [1; 0; 0]) [1; 1; 1] (identity 3)
             px_worked vol_worked b2m_worked 250 3
             (trade_start px_worked) 250
  = Raise AssertionError.
Proof.
  apply (trade_step_rejects (worked [1] [1; 0; 0]) [1; 1; 1] (identity 3)
           px_worked vol_worked b2m_worked 250 3 (trade_start px_worked) 250
           [1; 0; 0] [1; 0; 0] (1 * 1 + (0 * 1 + (0 * 1 + 0)))).
  - apply optimize_port_worked. reflexivity.
  - reflexivity.
  - reflexivity.
  - lra.
Defined.

Lemma range_shift (a b : Z) (len : nat) :
  forall s c : nat,
    (a + Z.of_nat s = b + Z.of_nat c)%Z ->
    map (fun k => (a + Z.of_nat k)%Z) (seq s len) =
    map (fun k => (b + Z.of_nat k)%Z) (seq c len).
Proof.
  induction len as [|len IH]; intros s c E; [reflexivity|].
  cbn [seq map]. f_equal; [exact E|]. apply IH. lia.
Qed.

Lemma range_split (t m : Z) :
  (250 <= t < m)%Z ->
  Py.range 250 m = Py.range 250 t ++ t :: Py.range (t + 1) m.
Proof.
  intros Ht. unfold Py.range.
  replace (Z.to_nat (m - 250))
    with (Z.to_nat (t - 250) + S (Z.to_nat (m - (t + 1))))%nat by lia.
  rewrite seq_app, map_app. f_equal.
  cbn [seq map]. f_equal; [lia|].
  apply range_shift. lia.
Qed.

(** X17: the run fails fast: when the days before [t] have been processed
    and day [t] raises, [trade_model] raises the same exception; the days
    after [t] are not run and the rows written so far are not returned. *)
Theorem trade_model_fails_fast (ext : collaborators)
    (px_close px_vol bk2mkt : DataFrame) (beta : vec) (sigma : matrix)
    (t : Z) (st1 : loop_state) (e : exn) :
  beta_model ext px_close = Ok beta ->
  sigma_model ext px_close = Ok sigma ->
  (250 <= t < Z.of_nat (length (rows px_close)))%Z ->
  trade_loop (trade_step ext beta sigma px_close px_vol bk2mkt 250
                         (length (columns px_close)))
             (Py.range 250 t) (trade_start px_close) = Ok st1 ->
  trade_step ext beta sigma px_close px_vol bk2mkt 250
             (length (columns px_close)) st1 t = Raise e ->
  trade_model ext px_close px_vol bk2mkt = Raise e.
Proof.
  intros Hb Hs Ht Hdone Hday.
  rewrite (trade_model_unfold ext px_close px_vol bk2mkt beta sigma Hb Hs)
    by lia.
  rewrite (range_split t) by exact Ht.
  rewrite (trade_loop_stops ext beta sigma px_close px_vol bk2mkt _ _ _ _ _ _ _
             Hdone Hday).
  reflexivity.
Qed.

Lemma sigma_model_short (ev : list R) (x : vec) :
  Forall (fun e => 0 < e) ev ->
  sigma_model (worked ev x) px_short = Ok (identity 3).
Proof.
  intros H. apply forallb_Rltb in H.
  unfold sigma_model, worked, px_short.
  cbn [calc_return ledoit_wolf eigvals rows repeat bind].
  unfold assert. rewrite H. reflexivity.
Qed.

Lemma trade_model_short_history_witness :
  trade_model (worked [1] []) px_short vol_worked b2m_worked = Raise IndexError.
Proof.
  apply (trade_model_short_history (worked [1] []) px_short vol_worked
           b2m_worked [1; 1; 1] (identity 3)).
  - vm_compute. reflexivity.
  - apply sigma_model_short. repeat constructor. lra.
  - vm_compute. lia.
Defined.

Lemma trade_step_worked_raises :
  trade_step (worked [1] [1; 0; 0]) [1; 1; 1] (identity 3)
             px_worked vol_worked b2m_worked 250 (length (columns px_worked))
             (trade_start px_worked) 250
  = Raise AssertionError.
Proof.
  unfold trade_step.
  rewrite optimize_port_worked by reflexivity. cbn [bind].
  replace (broadcast_row (length (columns px_worked)) [1; 0; 0])
    with (Ok [1; 0; 0]) by reflexivity.
  cbn [bind]. unfold dot.
  cbn [length Nat.eqb combine map fst snd vsum fold_right bind].
  match goal with
  | |- context [Rltb ?d (1/100)] =>
      replace (Rltb d (1/100)) with false by (symmetry; apply Rltb_false; lra)
  end.
  reflexivity.
Qed.

Lemma trade_model_fails_fast_witness :
  trade_model (worked [1] [1; 0; 0]) px_worked vol_worked b2m_worked
  = Raise AssertionError.
Proof.
  apply (trade_model_fails_fast (worked [1] [1; 0; 0])
           px_worked vol_worked b2m_worked [1; 1; 1] (identity 3) 250
           (trade_start px_worked) AssertionError).
  - apply beta_model_worked.
  - apply sigma_model_worked_run. repeat constructor. lra.
  - vm_compute. split; [intros E; discriminate E|reflexivity].
  - reflexivity.
  - apply trade_step_worked_raises.
Defined.

(** ** Portfolio optimiser: the program handed to the solver *)

(** The call of the solver made by [optimize_port]. *)
Lemma optimize_port_call (ext : collaborators) (w beta : vec) (sigma : matrix)
    (px_close px_vol bk2mkt : DataFrame) (t : Z) :
  optimize_port ext w beta sigma px_close px_vol bk2mkt t =
  (alpha_t <- alpha_model t px_close px_vol bk2mkt ;;
   A <- (if (length beta =? length (columns px_close))%nat
         then Ok [beta] else Raise ValueError) ;;
   qp ext (mscale 1 sigma) (vneg alpha_t)
      (mscale (-1) (identity (length (columns px_close)))
       ++ identity (length (columns px_close)))
      (vneg (fst (max_size w)) ++ snd (max_size w)) A [0]).
Proof.
  unfold optimize_port, shape. cbn [snd]. rewrite Nat2Z.id.
  destruct (max_size w). reflexivity.
Qed.

Lemma unit_row_dot (i : nat) (x : vec) :
  forall s : nat,
    vsum (map (fun p => fst p * snd p)
              (combine (map (fun j => if (i =? j)%nat then 1 else 0)
                            (seq s (length x))) x)) =
    if ((s <=? i) && (i <? s + length x))%nat then nth (i - s) x 0 else 0.
Proof.
  induction x as [|a x IH]; intros s.
  - simpl. destruct ((s <=? i) && (i <? s + 0))%nat;
      [destruct (i - s)%nat|]; reflexivity.
  - cbn [length seq map combine fst snd].
    change (vsum (?h :: ?t)) with (h + vsum t).
    rewrite IH.
    destruct (Nat.eqb_spec i s) as [->|Hne].
    + replace ((S s <=? s) && (s <? S s + length x))%nat with false
        by (symmetry; apply andb_false_iff; left; apply Nat.leb_gt; lia).
      replace ((s <=? s) && (s <? s + S (length x)))%nat with true
        by (symmetry; apply andb_true_iff; split;
            [apply Nat.leb_le|apply Nat.ltb_lt]; lia).
      rewrite Nat.sub_diag. simpl. lra.
    + destruct (Nat.leb_spec (S s) i) as [Hle|Hgt];
        destruct (Nat.ltb_spec i (S s + length x)) as [Hlt|Hge]; cbn [andb].
      * replace ((s <=? i) && (i <? s + S (length x)))%nat with true
          by (symmetry; apply andb_true_iff; split;
              [apply Nat.leb_le|apply Nat.ltb_lt]; lia).
        replace (i - s)%nat with (S (i - S s)) by lia. simpl. lra.
      * replace ((s <=? i) && (i <? s + S (length x)))%nat with false
          by (symmetry; apply andb_false_iff; right; apply Nat.ltb_ge; lia).
        lra.
      * replace ((s <=? i) && (i <? s + S (length x)))%nat with false
          by (symmetry; apply andb_false_iff; left; apply Nat.leb_gt; lia).
        lra.
      * replace ((s <=? i) && (i <? s + S (length x)))%nat with false
          by (symmetry; apply andb_false_iff; left; apply Nat.leb_gt; lia).
        lra.
Qed.

Lemma map_nth_seq (x : vec) :
  forall s : nat,
    map (fun i => nth (i - s) x 0) (seq s (length x)) = x.
Proof.
  induction x as [|a x IH]; intros s; [reflexivity|].
  cbn [length seq map]. rewrite Nat.sub_diag. cbn [nth]. f_equal.
  rewrite <- (IH (S s)) at 2. apply map_ext_in.
  intros i Hi. apply in_seq in Hi.
  replace (i - s)%nat with (S (i - S s)) by lia. reflexivity.
Qed.

Lemma mvmul_identity (x : vec) : mvmul (identity (length x)) x = x.
Proof.
  unfold mvmul, identity. rewrite map_map.
  transitivity (map (fun i => nth (i - 0) x 0) (seq 0 (length x)));
    [|apply map_nth_seq].
  apply map_ext_in. intros i Hi. apply in_seq in Hi.
  rewrite unit_row_dot.
  replace ((0 <=? i) && (i <? 0 + length x))%nat with true
    by (symmetry; apply andb_true_iff; split;
        [apply Nat.leb_le|apply Nat.ltb_lt]; lia).
  reflexivity.
Qed.

Lemma mvmul_scale (c : R) (m : matrix) (x : vec) :
  mvmul (mscale c m) x = vscale c (mvmul m x).
Proof.
  unfold mvmul, mscale, vscale. rewrite !map_map. apply map_ext.
  intros r. revert x. induction r as [|a r IH]; intros x.
  - simpl. lra.
  - destruct x as [|b x]; [simpl; lra|].
    cbn [map combine fst snd].
    change (vsum (?h :: ?t)) with (h + vsum t).
    rewrite IH. ring.
Qed.

Lemma mvmul_app (a b : matrix) (x : vec) :
  mvmul (a ++ b) x = mvmul a x ++ mvmul b x.
Proof. unfold mvmul. apply map_app. Qed.

Lemma Forall2_neg (a b : vec) :
  Forall2 Rle (vscale (-1) a) (vneg b) <-> Forall2 Rle b a.
Proof.
  revert b. induction a as [|x a IH]; intros b; destruct b as [|y b]; simpl;
    split; intros H; inversion H; subst; constructor;
    try lra; apply IH; assumption.
Qed.

Lemma Forall2_app_same {A B : Type} (P : A -> B -> Prop)
    (a1 a2 : list A) (b1 b2 : list B) :
  length a1 = length b1 ->
  (Forall2 P (a1 ++ a2) (b1 ++ b2) <-> Forall2 P a1 b1 /\ Forall2 P a2 b2).
Proof.
  revert b1. induction a1 as [|x a1 IH]; intros b1 Hl;
    destruct b1 as [|y b1]; try discriminate; cbn [app].
  - split; [intros H; split; [constructor|exact H]|intros [_ H]; exact H].
  - split.
    + intros H. inversion H; subst.
      apply IH in H5; [|simpl in Hl; lia]. destruct H5 as [H1 H2].
      split; [constructor; assumption|assumption].
    + intros [H1 H2]. inversion H1; subst.
      constructor; [assumption|]. apply IH; [simpl in Hl; lia|].
      split; assumption.
Qed.

(** X18: the inequality block of the program is the box of [max_size]: a
    vector with one entry per asset satisfies [G x <= h] exactly when it
    lies between the lower and the upper bounds, entry by entry. *)
Theorem qp_box (w x : vec) :
  length x = length w ->
  (Forall2 Rle (mvmul (mscale (-1) (identity (length w)) ++ identity (length w)) x)
               (vneg (fst (max_size w)) ++ snd (max_size w)) <->
   Forall2 Rle (fst (max_size w)) x /\ Forall2 Rle x (snd (max_size w))).
Proof.
  intros Hl. rewrite <- Hl.
  rewrite mvmul_app, mvmul_scale, mvmul_identity.
  rewrite Forall2_app_same.
  - rewrite Forall2_neg. reflexivity.
  - unfold vscale, vneg. rewrite !length_map, max_size_eq. cbn [fst].
    rewrite length_map. exact Hl.
Qed.

Lemma qp_box_witness :
  Forall2 Rle (mvmul (mscale (-1) (identity (length (zeros 2)))
                      ++ identity (length (zeros 2))) [1; -1])
              (vneg (fst (max_size (zeros 2))) ++ snd (max_size (zeros 2))) <->
  Forall2 Rle (fst (max_size (zeros 2))) [1; -1] /\
  Forall2 Rle [1; -1] (snd (max_size (zeros 2))).
Proof. apply (qp_box (zeros 2) [1; -1]). reflexivity. Defined.

(** ** Risk estimator: one beta per asset *)

Lemma mapM_length {A B : Type} (f : A -> result B) (l : list A) (ys : list B) :
  mapM f l = Ok ys -> length ys = length l.
Proof.
  revert ys. induction l as [|x l IH]; intros ys H; simpl in H.
  - injection H as <-. reflexivity.
  - destruct (f x) as [y|]; [|discriminate]. cbn [bind] in H.
    destruct (mapM f l) as [zs|]; [|discriminate]. cbn [bind] in H.
    injection H as <-. simpl. f_equal. apply IH. reflexivity.
Qed.

(** X19: a beta vector returned by [beta_model] has one entry per column of
    the price matrix, so the reshape in [optimize_port] accepts it. *)
Theorem beta_model_length (ext : collaborators) (px_close : DataFrame)
    (beta : vec) :
  beta_model ext px_close = Ok beta ->
  length beta = length (columns px_close).
Proof.
  unfold beta_model. intros H.
  destruct (calc_return ext px_close) as [data|]; [|discriminate].
  cbn [bind] in H.
  destruct (frame_of _ _ _) as [ret|] eqn:Hf; [|discriminate].
  cbn [bind] in H. apply frame_of_Ok in Hf. destruct Hf as [-> _].
  apply mapM_length in H. rewrite H. cbn [columns]. apply length_seq.
Qed.

Lemma beta_model_length_witness :
  length [1; 1; 1] = length (columns px_worked).
Proof.
  apply (beta_model_length (worked [1] []) px_worked [1; 1; 1]).
  apply beta_model_worked.
Defined.

(** ** Backtest evaluator: dates and shape *)

Lemma loc_Ok_In (t : date) (df : DataFrame) (r : vec) :
  loc t df = Ok r -> In t (index df).
Proof.
  unfold loc.
  destruct (find _ _) as [p|] eqn:E; [|discriminate]. intros _.
  apply find_some in E. destruct E as [Hin Heq].
  apply Nat.eqb_eq in Heq. subst t.
  destruct p as [a b]. apply in_combine_l in Hin. exact Hin.
Qed.

Lemma set_loc_shape (t : date) (x : R) (s : Series) :
  length (s_values s) = length (s_index s) ->
  s_index (set_loc t x s) = s_index s /\
  length (s_values (set_loc t x s)) = length (s_index s).
Proof.
  intros H. unfold set_loc. cbn [s_index s_values]. split; [reflexivity|].
  rewrite length_map, length_combine. lia.
Qed.

Lemma backtest_loop_dates (ret_full pf : DataFrame) (days : list date) :
  forall (pnl out : Series),
    length (s_values pnl) = length (s_index pnl) ->
    backtest_loop ret_full pf days pnl = Ok out ->
    Forall (fun t => In t (index ret_full)) days /\
    s_index out = s_index pnl /\
    length (s_values out) = length (s_index pnl).
Proof.
  induction days as [|t days IH]; intros pnl out Hl H.
  - simpl in H. injection H as <-. repeat split; [constructor|exact Hl].
  - simpl in H.
    destruct (loc t ret_full) as [r|] eqn:Hr; [|discriminate].
    cbn [bind] in H.
    destruct (loc t pf) as [p|]; [|discriminate]. cbn [bind] in H.
    destruct (dot r p) as [d|]; [|discriminate]. cbn [bind] in H.
    destruct (set_loc_shape t d pnl Hl) as [Hi Hv].
    apply IH in H; [|rewrite Hi; exact Hv].
    destruct H as (Hd & Hi' & Hv').
    rewrite Hi in Hi', Hv'.
    repeat split; try assumption.
    constructor; [|exact Hd]. apply (loc_Ok_In t ret_full r Hr).
Qed.

Lemma backtest_Ok_shape (ext : collaborators) (g : globals)
    (px_close port_full pf : DataFrame) (out : Series) :
  port_full_pd g = Some pf ->
  length (rows pf) = length (index pf) ->
  backtest ext g px_close port_full = Ok out ->
  Forall (fun t => In t (Py.slice_from 1 (index px_close))) (index pf) /\
  s_index out = index pf /\
  length (s_values out) = length (index pf).
Proof.
  intros Hg Hl H. unfold backtest in H.
  destruct (calc_return ext px_close) as [data|]; [|discriminate].
  cbn [bind] in H.
  destruct (frame_of _ _ _) as [ret_full|] eqn:Hf; [|discriminate].
  cbn [bind] in H. apply frame_of_Ok in Hf. destruct Hf as [-> _].
  rewrite Hg in H. cbn [bind] in H.
  unfold first_column_times_zero in H.
  destruct (columns pf); [discriminate|]. cbn [bind] in H.
  destruct (backtest_loop _ _ _ _) as [pnl|] eqn:Hloop; [|discriminate].
  cbn [bind] in H. injection H as <-.
  apply backtest_loop_dates in Hloop;
    [|cbn [s_values s_index]; rewrite length_map; exact Hl].
  cbn [index s_index] in Hloop. destruct Hloop as (Hd & Hi & Hv).
  unfold cumsum. cbn [s_index s_values]. rewrite cumsum_from_length.
  repeat split; assumption.
Qed.

(** X20: when [backtest] returns, every date of the portfolio is a date of
    the return frame, that is a date of the price matrix other than its
    first; a portfolio with any other date makes the call raise. *)
Theorem backtest_dates (ext : collaborators) (g : globals)
    (px_close port_full pf : DataFrame) (out : Series) :
  port_full_pd g = Some pf ->
  length (rows pf) = length (index pf) ->
  backtest ext g px_close port_full = Ok out ->
  Forall (fun t => In t (Py.slice_from 1 (index px_close))) (index pf) /\
  s_index out = index pf /\
  length (s_values out) = length (index pf).
Proof. apply backtest_Ok_shape. Qed.

Lemma backtest_dates_witness :
  Forall (fun t => In t (Py.slice_from 1 (index px_three_days)))
         (index held_two_days) /\
  s_index (mkSeries [1; 2]%nat [10; 30]) = index held_two_days /\
  length (s_values (mkSeries [1; 2]%nat [10; 30])) = length (index held_two_days).
Proof.
  apply (backtest_dates (worked [] []) {| port_full_pd := Some held_two_days |}
           px_three_days held_two_days held_two_days).
  - reflexivity.
  - reflexivity.
  - apply backtest_worked.
Defined.

(** ** The script: a run followed by its evaluation *)

Lemma trade_model_frame (ext : collaborators)
    (px_close px_vol bk2mkt hist : DataFrame) :
  trade_model ext px_close px_vol bk2mkt = Ok hist ->
  index hist = Py.slice_from 250 (index px_close) /\
  length (rows hist) = (length (rows px_close) - 250)%nat /\
  length (rows hist) = length (index hist).
Proof.
  intros H.
  destruct (trade_model_Ok_estimates _ _ _ _ _ H) as (beta & sigma & Hb & Hs & Hm).
  rewrite (trade_model_unfold ext px_close px_vol bk2mkt beta sigma Hb Hs Hm) in H.
  destruct (trade_loop _ _ _) as [st|] eqn:Hloop in H; [|discriminate].
  cbn [bind] in H. rewrite range_nat in Hloop.
  apply trade_loop_inv in Hloop;
    [|unfold trade_start; cbn [port_full]; rewrite repeat_length; lia].
  destruct Hloop as (outs & stored & Hc & Hst & Hl & Hfull & Hframe).
  unfold trade_start in Hfull. cbn [port_full] in Hfull.
  destruct Hframe as [Hpf Hlen]; [left; lia|].
  rewrite Hpf in H. injection H as <-. cbn [rows index].
  rewrite skipn_all2 in Hfull by (rewrite repeat_length; lia).
  simpl in Hfull. rewrite app_nil_r in Hfull.
  rewrite <- Hlen, Hfull. repeat split. exact Hl.
Qed.

(** X21: when the script completes, the cumulative profit has one value for
    each day from day 250 on, under the dates of the price matrix from index
    250 on, and the global portfolio is the history of the run. *)
Theorem main_one_value_per_day (ext : collaborators)
    (px_close px_vol bk2mkt : DataFrame) (g : globals) (pnl_cum : Series) :
  main ext px_close px_vol bk2mkt = Ok (g, pnl_cum) ->
  exists hist,
    trade_model ext px_close px_vol bk2mkt = Ok hist /\
    port_full_pd g = Some hist /\
    s_index pnl_cum = Py.slice_from 250 (index px_close) /\
    length (s_values pnl_cum) = (length (rows px_close) - 250)%nat.
Proof.
  unfold main. intros H.
  destruct (trade_model ext px_close px_vol bk2mkt) as [hist|] eqn:Ht;
    [|discriminate].
  cbn [bind] in H.
  destruct (backtest ext _ px_close hist) as [pnl|] eqn:Hb; [|discriminate].
  cbn [bind] in H. injection H as <- <-.
  destruct (trade_model_frame _ _ _ _ _ Ht) as (Hi & Hr & Hl).
  apply (backtest_Ok_shape ext {| port_full_pd := Some hist |} px_close hist
           hist pnl eq_refl Hl) in Hb.
  destruct Hb as (_ & Hidx & Hv).
  exists hist. repeat split.
  - rewrite Hidx. exact Hi.
  - rewrite Hv, <- Hl. exact Hr.
Qed.

Lemma main_worked :
  main (worked [1] [0; 0; 0]) px_worked vol_worked b2m_worked =
  Ok ({| port_full_pd := Some (mkFrame [250%nat] [0; 1; 2]%nat [[0; 0; 0]]) |},
      mkSeries [250%nat] [0]).
Proof.
  unfold main.
  rewrite trade_model_worked by (try lra; repeat constructor; lra).
  cbn [bind].
  cbv -[Rplus Rminus Rmult Rdiv Rinv Ropp IZR].
  do 3 f_equal. f_equal. lra.
Qed.

Lemma main_one_value_per_day_witness :
  exists hist,
    trade_model (worked [1] [0; 0; 0]) px_worked vol_worked b2m_worked = Ok hist /\
    port_full_pd {| port_full_pd :=
                      Some (mkFrame [250%nat] [0; 1; 2]%nat [[0; 0; 0]]) |}
      = Some hist /\
    s_index (mkSeries [250%nat] [0]) = Py.slice_from 250 (index px_worked) /\
    length (s_values (mkSeries [250%nat] [0]))
      = (length (rows px_worked) - 250)%nat.
Proof.
  apply (main_one_value_per_day (worked [1] [0; 0; 0])
           px_worked vol_worked b2m_worked).
  apply main_worked.
Defined.

(** ** The windows of the raw sub-signals *)

(** X22: from day 250 on, the raw momentum of day [t] is the close of day
    [t - 250] divided by the close of day [t - 1], minus one, asset by
    asset; it raises only where one of these two rows is missing. *)
Theorem momentum_window (t : Z) (px_close : DataFrame) :
  (250 <= t)%Z -> (t <= Z.of_nat (length (rows px_close)))%Z ->
  mom_ret (iloc_rows (t - 250) t px_close) =
  (first <- iloc (t - 250) px_close ;;
   last <- iloc (t - 1) px_close ;;
   Ok (map (fun p => fst p / snd p - 1) (combine first last))).
Proof. apply mom_ret_rows. Qed.

Lemma momentum_window_witness :
  mom_ret (iloc_rows (251 - 250) 251 px_doubled) =
  (first <- iloc (251 - 250) px_doubled ;;
   last <- iloc (251 - 1) px_doubled ;;
   Ok (map (fun p => fst p / snd p - 1) (combine first last))).
Proof.
  apply (momentum_window 251 px_doubled).
  - vm_compute. intros E. discriminate E.
  - vm_compute. intros E. discriminate E.
Defined.

(** X23: from day 5 on, the raw volume of day [t] is the mean, column by
    column, of the four rows of the days [t - 5] to [t - 2]. *)
Theorem volume_window (t : Z) (px_vol : DataFrame) :
  (5 <= t)%Z -> (t <= Z.of_nat (length (rows px_vol)))%Z ->
  vol_avg (iloc_rows (t - 5) t px_vol) =
  mean_axis0 (iloc_rows (t - 5) (t - 1) px_vol).
Proof.
  intros Ht Hl. rewrite vol_avg_rows by assumption. reflexivity.
Qed.

Lemma volume_window_witness :
  vol_avg (iloc_rows (250 - 5) 250 vol_spiked) =
  mean_axis0 (iloc_rows (250 - 5) (250 - 1) vol_spiked).
Proof.
  apply (volume_window 250 vol_spiked).
  - vm_compute. intros E. discriminate E.
  - vm_compute. intros E. discriminate E.
Defined.
